(** * Vision-RAG front end: the session-state engine

    A shallow embedding of [store/generalSlicer] (the Redux Toolkit slice
    of [frontend/app/page.jsx]) and of the send-message handler of the
    [ChatArea] component, followed by the properties of the reducer and
    of the message exchange that the specification states.  The handlers
    of the Home page and of the FileUpload, UrlIngestion, TopicSearch and
    ChatMessages components are embedded as well, with the properties
    their code shows.

    Conventions of the embedding.
    - A JS primitive is a [prim]; [===] on primitives is decidable
      equality, truthiness is [truthy].  Numbers are integer valued.
    - A string is a sequence of character codes below 256.
    - Immer's draft mutation is explicit state passing: a case reducer is
      a function [State -> State], statements are composed with [;;].
    - [Date.now()] is an input of whoever reads the clock.
    - An awaited call is given the answer it ends with; nothing else is
      reduced between its start and its end. *)

From Stdlib Require Import Ascii String.
From stdpp Require Import base decidable option list strings pretty gmap sets.

Open Scope Z_scope.

(** ** JavaScript values *)

Inductive prim :=
  | PUndefined
  | PNull
  | PBool (b : bool)
  | PNum (n : Z)
  | PStr (s : string).

#[global] Instance prim_eq_dec : EqDecision prim.
Proof. solve_decision. Defined.

(** Parsed response bodies: primitives, arrays and objects. *)
Unset Elimination Schemes.
Inductive json :=
  | JPrim (p : prim)
  | JArr (items : list json)
  | JObj (fields : list (string * json)).
Set Elimination Schemes.

(** [ToBoolean]: [undefined], [null], [false], [0] and [""] are falsy. *)
Definition truthy (p : prim) : bool :=
  match p with
  | PUndefined | PNull => false
  | PBool b => b
  | PNum n => negb (n =? 0)
  | PStr s => negb (String.eqb s "")
  end.

(** Arrays and objects are always truthy. *)
Definition truthy_json (v : json) : bool :=
  match v with
  | JPrim p => truthy p
  | JArr _ | JObj _ => true
  end.

(** [a === b] and [a !== b] on primitives. *)
Definition strict_eq (a b : prim) : bool := bool_decide (a = b).
Definition strict_ne (a b : prim) : bool := negb (strict_eq a b).

(** ** String.prototype.trim *)

(** White space and line terminators with a code below 256:
    TAB, LF, VT, FF, CR, SP and NBSP. *)
Definition isWhiteSpace (c : ascii) : bool :=
  let n := nat_of_ascii c in
  ((9 <=? n) && (n <=? 13) || (n =? 32) || (n =? 160))%nat.

Fixpoint trimStart (s : string) : string :=
  match s with
  | EmptyString => EmptyString
  | String c s' => if isWhiteSpace c then trimStart s' else s
  end.

Fixpoint trimEnd (s : string) : string :=
  match s with
  | EmptyString => EmptyString
  | String c s' =>
      match trimEnd s' with
      | EmptyString => if isWhiteSpace c then EmptyString else String c EmptyString
      | t => String c t
      end
  end.

Definition trim (s : string) : string := trimEnd (trimStart s).

(** ** Data model *)

Inductive Role := user | assistant.

#[global] Instance Role_eq_dec : EqDecision Role.
Proof. solve_decision. Defined.

(** A conversation record as the backend returns it: the list endpoint
    keys it by [id], the create endpoint by [conversation_id]; a field the
    record lacks reads [PUndefined]. *)
Module Conversation.
Record t := mk { id : prim; conversation_id : prim; title : prim }.
End Conversation.

Module Message.
Record t := mk { role : Role; content : prim; id : prim }.
End Message.

(** A record of the history endpoint, [{role, text, id}]. *)
Module HistoryRecord.
Record t := mk { role : prim; text : prim; id : prim }.
End HistoryRecord.

Module TopicSearchResult.
Record t := mk { title : prim; url : prim }.
End TopicSearchResult.

Record State := mkState {
  conversations : list Conversation.t;
  currentConversationId : prim;
  messages : list Message.t;
  documents : list string;
  selectedDocuments : list string;
  topicSearchResults : list TopicSearchResult.t;
  isLoading : bool;
  isSending : bool;
  isUploading : bool;
  isSearching : bool;
  error : json
}.

Definition initialState : State := {|
  conversations := [];
  currentConversationId := PNull;
  messages := [];
  documents := [];
  selectedDocuments := [];
  topicSearchResults := [];
  isLoading := false;
  isSending := false;
  isUploading := false;
  isSearching := false;
  error := JPrim PNull
|}.

(** ** Assignments to the draft state *)

Definition Mutation := State -> State.

Definition seq (m1 m2 : Mutation) : Mutation := fun s => m2 (m1 s).
Declare Scope mutation_scope.
Delimit Scope mutation_scope with mut.
Bind Scope mutation_scope with Mutation.
Notation "m1 ;; m2" := (seq m1 m2)
  (at level 100, m2 at level 200, right associativity) : mutation_scope.
Open Scope mutation_scope.

Definition set_conversations (v : list Conversation.t) : Mutation := fun s =>
  mkState v (currentConversationId s) (messages s) (documents s)
    (selectedDocuments s) (topicSearchResults s)
    (isLoading s) (isSending s) (isUploading s) (isSearching s) (error s).

Definition set_currentConversationId (v : prim) : Mutation := fun s =>
  mkState (conversations s) v (messages s) (documents s)
    (selectedDocuments s) (topicSearchResults s)
    (isLoading s) (isSending s) (isUploading s) (isSearching s) (error s).

Definition set_messages (v : list Message.t) : Mutation := fun s =>
  mkState (conversations s) (currentConversationId s) v (documents s)
    (selectedDocuments s) (topicSearchResults s)
    (isLoading s) (isSending s) (isUploading s) (isSearching s) (error s).

Definition set_documents (v : list string) : Mutation := fun s =>
  mkState (conversations s) (currentConversationId s) (messages s) v
    (selectedDocuments s) (topicSearchResults s)
    (isLoading s) (isSending s) (isUploading s) (isSearching s) (error s).

Definition set_selectedDocuments (v : list string) : Mutation := fun s =>
  mkState (conversations s) (currentConversationId s) (messages s) (documents s)
    v (topicSearchResults s)
    (isLoading s) (isSending s) (isUploading s) (isSearching s) (error s).

Definition set_topicSearchResults (v : list TopicSearchResult.t) : Mutation := fun s =>
  mkState (conversations s) (currentConversationId s) (messages s) (documents s)
    (selectedDocuments s) v
    (isLoading s) (isSending s) (isUploading s) (isSearching s) (error s).

Definition set_isLoading (v : bool) : Mutation := fun s =>
  mkState (conversations s) (currentConversationId s) (messages s) (documents s)
    (selectedDocuments s) (topicSearchResults s)
    v (isSending s) (isUploading s) (isSearching s) (error s).

Definition set_isSending (v : bool) : Mutation := fun s =>
  mkState (conversations s) (currentConversationId s) (messages s) (documents s)
    (selectedDocuments s) (topicSearchResults s)
    (isLoading s) v (isUploading s) (isSearching s) (error s).

Definition set_isUploading (v : bool) : Mutation := fun s =>
  mkState (conversations s) (currentConversationId s) (messages s) (documents s)
    (selectedDocuments s) (topicSearchResults s)
    (isLoading s) (isSending s) v (isSearching s) (error s).

Definition set_isSearching (v : bool) : Mutation := fun s =>
  mkState (conversations s) (currentConversationId s) (messages s) (documents s)
    (selectedDocuments s) (topicSearchResults s)
    (isLoading s) (isSending s) (isUploading s) v (error s).

Definition set_error (v : json) : Mutation := fun s =>
  mkState (conversations s) (currentConversationId s) (messages s) (documents s)
    (selectedDocuments s) (topicSearchResults s)
    (isLoading s) (isSending s) (isUploading s) (isSearching s) v.

(** ** Array helpers *)

(** [arr.indexOf(x)]: the first index holding [x], or [-1]. *)
Fixpoint indexOf (arr : list string) (x : string) : Z :=
  match arr with
  | [] => -1
  | y :: rest =>
      if bool_decide (y = x) then 0
      else let i := indexOf rest x in
           if i =? -1 then -1 else i + 1
  end.

(** [arr.splice(i, 1)] for an index [i] that [indexOf] returned. *)
Definition splice1 (i : Z) (arr : list string) : list string :=
  delete (Z.to_nat i) arr.

(** [new Set(iterable)]: the elements in order of first insertion. *)
Definition Set_add (acc : list string) (x : string) : list string :=
  if bool_decide (x ∈ acc) then acc else acc ++ [x].

Definition Array_from_Set (payload : list string) : list string :=
  foldl Set_add [] payload.

(** ** Actions *)

(** The eleven [createAsyncThunk] operation families. *)
Inductive Thunk :=
  | createNewChat
  | fetchConversations
  | deleteConversation
  | fetchConversationHistory
  | uploadFile
  | ingestUrl
  | searchTopic
  | ingestTopic
  | fetchDocuments
  | sendMessage
  | submitFeedback.

(** What a payload creator returns on success, per family, with the part
    of [response.data] that the case reducer reads. *)
Inductive Fulfilled :=
  | createNewChat_ok (payload : Conversation.t)
  | fetchConversations_ok (payload : list Conversation.t)
  | deleteConversation_ok (payload : prim)
  | fetchConversationHistory_ok (payload_messages : list HistoryRecord.t)
  | uploadFile_ok (payload_document_names : list string)
  | ingestUrl_ok
  | searchTopic_ok (payload_results : option (list TopicSearchResult.t))
  | ingestTopic_ok
  | fetchDocuments_ok (payload : list string)
  | sendMessage_ok (payload_response : prim)
  | submitFeedback_ok.

Inductive Action :=
  (* reducers *)
  | setCurrentConversationId (payload : prim)
  | toggleSelectedDocument (payload : string)
  | clearSelectedDocuments
  | setSelectedDocuments (payload : list string)
  | clearTopicSearchResults
  | clearError
  | clearMessages
  | addLocalMessage (payload : Message.t)
  (* extraReducers: the three lifecycle events of a thunk *)
  | pending (t : Thunk)
  | fulfilled (f : Fulfilled)
  | rejected (t : Thunk) (payload : json).

(** ** The slice's case reducers *)

Module reducers.

Definition setCurrentConversationId (payload : prim) : Mutation :=
  set_currentConversationId payload.

Definition toggleSelectedDocument (payload : string) : Mutation := fun state =>
  let docName := payload in
  let existingIndex := indexOf (selectedDocuments state) docName in
  if negb (existingIndex =? -1) then
    set_selectedDocuments (splice1 existingIndex (selectedDocuments state)) state
  else
    set_selectedDocuments (selectedDocuments state ++ [docName]) state.

Definition clearSelectedDocuments : Mutation := set_selectedDocuments [].

Definition setSelectedDocuments (payload : list string) : Mutation :=
  set_selectedDocuments (Array_from_Set payload).

Definition clearTopicSearchResults : Mutation := set_topicSearchResults [].

Definition clearError : Mutation := set_error (JPrim PNull).

Definition clearMessages : Mutation := set_messages [].

Definition addLocalMessage (payload : Message.t) : Mutation := fun state =>
  set_messages (messages state ++ [payload]) state.

End reducers.

Module extraReducers.

Definition on_pending (t : Thunk) : Mutation :=
  match t with
  | createNewChat => set_isLoading true ;; set_error (JPrim PNull)
  | fetchConversations => set_isLoading true
  | deleteConversation => set_isLoading true
  | fetchConversationHistory => set_isLoading true
  | uploadFile => set_isUploading true ;; set_error (JPrim PNull)
  | ingestUrl => set_isLoading true ;; set_error (JPrim PNull)
  | searchTopic => set_isSearching true ;; set_error (JPrim PNull)
  | ingestTopic => set_isLoading true ;; set_error (JPrim PNull)
  | fetchDocuments => set_isLoading true
  | sendMessage => set_isSending true ;; set_error (JPrim PNull)
  | submitFeedback => set_isLoading true
  end.

Definition createNewChat_fulfilled (payload : Conversation.t) : Mutation :=
  set_isLoading false ;;
  (fun state => set_conversations (conversations state ++ [payload]) state) ;;
  set_currentConversationId (Conversation.conversation_id payload) ;;
  set_messages [] ;;
  set_documents [] ;;
  set_selectedDocuments [].

Definition fetchConversations_fulfilled (payload : list Conversation.t) : Mutation :=
  set_isLoading false ;;
  set_conversations payload.

Definition deleteConversation_fulfilled (payload : prim) : Mutation :=
  set_isLoading false ;;
  (fun state =>
     set_conversations
       (filter (fun c => strict_ne (Conversation.id c) payload)
               (conversations state)) state) ;;
  (fun state =>
     if strict_eq (currentConversationId state) payload then
       (set_currentConversationId PNull ;;
        set_messages [] ;;
        set_documents [] ;;
        set_selectedDocuments []) state
     else state).

Definition fetchConversationHistory_fulfilled
    (payload_messages : list HistoryRecord.t) : Mutation :=
  set_isLoading false ;;
  set_messages
    (map (fun m => Message.mk
                     (if strict_eq (HistoryRecord.role m) (PStr "human")
                      then user else assistant)
                     (HistoryRecord.text m)
                     (HistoryRecord.id m))
         payload_messages).

Definition uploadFile_fulfilled (payload_document_names : list string) : Mutation :=
  set_isUploading false ;;
  set_documents payload_document_names.

Definition ingestUrl_fulfilled : Mutation :=
  set_isLoading false.

(** [action.payload.results || []]: an array is truthy, a missing field is not. *)
Definition searchTopic_fulfilled
    (payload_results : option (list TopicSearchResult.t)) : Mutation :=
  set_isSearching false ;;
  set_topicSearchResults (default [] payload_results).

Definition ingestTopic_fulfilled : Mutation :=
  set_isLoading false ;;
  set_topicSearchResults [].

Definition fetchDocuments_fulfilled (payload : list string) : Mutation :=
  set_isLoading false ;;
  set_documents payload.

(** [now] is the value [Date.now()] returns inside the case reducer. *)
Definition sendMessage_fulfilled (now : Z) (payload_response : prim) : Mutation :=
  set_isSending false ;;
  (fun state =>
     if truthy payload_response then
       set_messages
         (messages state ++
            [Message.mk assistant payload_response (PStr ("ai_" +:+ pretty now))])
         state
     else state).

Definition submitFeedback_fulfilled : Mutation :=
  set_isLoading false.

Definition on_fulfilled (now : Z) (f : Fulfilled) : Mutation :=
  match f with
  | createNewChat_ok payload => createNewChat_fulfilled payload
  | fetchConversations_ok payload => fetchConversations_fulfilled payload
  | deleteConversation_ok payload => deleteConversation_fulfilled payload
  | fetchConversationHistory_ok ms => fetchConversationHistory_fulfilled ms
  | uploadFile_ok names => uploadFile_fulfilled names
  | ingestUrl_ok => ingestUrl_fulfilled
  | searchTopic_ok results => searchTopic_fulfilled results
  | ingestTopic_ok => ingestTopic_fulfilled
  | fetchDocuments_ok payload => fetchDocuments_fulfilled payload
  | sendMessage_ok response => sendMessage_fulfilled now response
  | submitFeedback_ok => submitFeedback_fulfilled
  end.

Definition on_rejected (t : Thunk) (payload : json) : Mutation :=
  match t with
  | createNewChat => set_isLoading false ;; set_error payload
  | fetchConversations => set_isLoading false ;; set_error payload
  | deleteConversation => set_isLoading false ;; set_error payload
  | fetchConversationHistory => set_isLoading false ;; set_error payload
  | uploadFile => set_isUploading false ;; set_error payload
  | ingestUrl => set_isLoading false ;; set_error payload
  | searchTopic => set_isSearching false ;; set_error payload
  | ingestTopic => set_isLoading false ;; set_error payload
  | fetchDocuments => set_isLoading false ;; set_error payload
  | sendMessage => set_isSending false ;; set_error payload
  | submitFeedback => set_isLoading false ;; set_error payload
  end.

End extraReducers.

(** [generalSlice.reducer]; [now] is the clock reading during the reduction. *)
Definition generalReducer (now : Z) (state : State) (action : Action) : State :=
  match action with
  | setCurrentConversationId payload => reducers.setCurrentConversationId payload state
  | toggleSelectedDocument payload => reducers.toggleSelectedDocument payload state
  | clearSelectedDocuments => reducers.clearSelectedDocuments state
  | setSelectedDocuments payload => reducers.setSelectedDocuments payload state
  | clearTopicSearchResults => reducers.clearTopicSearchResults state
  | clearError => reducers.clearError state
  | clearMessages => reducers.clearMessages state
  | addLocalMessage payload => reducers.addLocalMessage payload state
  | pending t => extraReducers.on_pending t state
  | fulfilled f => extraReducers.on_fulfilled now f state
  | rejected t payload => extraReducers.on_rejected t payload state
  end.

(** ** Thunks: what a payload creator hands to the reducer *)

(** The error a failed [axios] call throws: [error.response?.data] when the
    backend answered, and [error.message]. *)
Record AxiosError := mkAxiosError {
  response_data : option json;
  message : string
}.

(** [rejectWithValue(error.response?.data || error.message)]. *)
Definition rejectWithValue (e : AxiosError) : json :=
  match response_data e with
  | Some data => if truthy_json data then data else JPrim (PStr (message e))
  | None => JPrim (PStr (message e))
  end.

(** How a network call ends. *)
Inductive Outcome :=
  | succeeded (f : Fulfilled)
  | failed (t : Thunk) (e : AxiosError).

(** The lifecycle event a thunk dispatches when its call has ended. *)
Definition settle (o : Outcome) : Action :=
  match o with
  | succeeded f => fulfilled f
  | failed t e => rejected t (rejectWithValue e)
  end.

(** ** The ChatArea component's send handler *)

(** The argument of the [sendMessage] thunk, which it posts to
    [/qa/conversations/{conversationId}]. *)
Record SendRequest := mkSendRequest {
  conversationId : prim;
  userQuery : string;
  selected_documents : list string
}.

(** The store, the value of the form's first element ([None] when the form
    has no such element) and the requests handed to the Backend Gateway. *)
Record World := mkWorld {
  store : State;
  inputElement : option string;
  gateway : list SendRequest
}.

Definition dispatch (now : Z) (a : Action) (w : World) : World :=
  mkWorld (generalReducer now (store w) a) (inputElement w) (gateway w).

Definition hasSelectedDocuments (state : State) : bool :=
  (0 <? length (selectedDocuments state))%nat.

(** [dispatch(sendMessage(arg))]: [createAsyncThunk] dispatches [pending]
    and runs the payload creator, which issues the POST. *)
Definition dispatch_sendMessage (now : Z) (arg : SendRequest) (w : World) : World :=
  let w1 := dispatch now (pending sendMessage) w in
  mkWorld (store w1) (inputElement w1) (gateway w1 ++ [arg]).

(** [handleSendMessage]; the component reads [currentConversationId] and
    [selectedDocuments] from the store's state, [now] is [Date.now()]. *)
Definition handleSendMessage (now : Z) (w : World) : World :=
  let state := store w in
  let userQuery := default "" (inputElement w) in
  if negb (truthy (PStr (trim userQuery)))
     || negb (truthy (currentConversationId state))
     || negb (hasSelectedDocuments state)
  then w
  else
    let userMessage :=
      Message.mk user (PStr userQuery) (PStr ("user_" +:+ pretty now)) in
    let w1 := dispatch now (addLocalMessage userMessage) w in
    let w2 := mkWorld (store w1)
                (match inputElement w1 with Some _ => Some "" | None => None end)
                (gateway w1) in
    dispatch_sendMessage now
      (mkSendRequest (currentConversationId state) userQuery (selectedDocuments state))
      w2.

(** The [sendMessage] call of an earlier send ends: with [response.data.response]
    or with an error. *)
Definition settle_sendMessage (now : Z) (result : prim + AxiosError) (w : World) : World :=
  match result with
  | inl response => dispatch now (settle (succeeded (sendMessage_ok response))) w
  | inr e => dispatch now (settle (failed sendMessage e)) w
  end.

(** A send passes the gate: a query that is not blank, a current
    conversation and at least one selected document. *)
Definition passesGate (w : World) : Prop :=
  trim (default "" (inputElement w)) <> ""
  /\ truthy (currentConversationId (store w)) = true
  /\ selectedDocuments (store w) <> [].

(** ** Session states *)

(** The store starts from [initialState] and changes by reductions only. *)
Inductive reachable : State -> Prop :=
  | reachable_init : reachable initialState
  | reachable_step now s a : reachable s -> reachable (generalReducer now s a).

(** ** The specification's table of loading flags *)

Inductive Flag := general | sending | uploading | searching.

(** The operations sharing each flag, as the specification lists them. *)
Definition category (t : Thunk) : Flag :=
  match t with
  | sendMessage => sending
  | uploadFile => uploading
  | searchTopic => searching
  | createNewChat | fetchConversations | deleteConversation
  | fetchConversationHistory | ingestUrl | ingestTopic
  | fetchDocuments | submitFeedback => general
  end.

Definition flag (c : Flag) (s : State) : bool :=
  match c with
  | general => isLoading s
  | sending => isSending s
  | uploading => isUploading s
  | searching => isSearching s
  end.

(** The fields a feedback event leaves alone. *)
Definition same_outside_isLoading_error (s s' : State) : Prop :=
  conversations s' = conversations s
  /\ currentConversationId s' = currentConversationId s
  /\ messages s' = messages s
  /\ documents s' = documents s
  /\ selectedDocuments s' = selectedDocuments s
  /\ topicSearchResults s' = topicSearchResults s
  /\ isSending s' = isSending s
  /\ isUploading s' = isUploading s
  /\ isSearching s' = isSearching s.

(** ** The thunks' payload creators *)

(** The family a fulfilled event belongs to. *)
Definition fulfilled_family (f : Fulfilled) : Thunk :=
  match f with
  | createNewChat_ok _ => createNewChat
  | fetchConversations_ok _ => fetchConversations
  | deleteConversation_ok _ => deleteConversation
  | fetchConversationHistory_ok _ => fetchConversationHistory
  | uploadFile_ok _ => uploadFile
  | ingestUrl_ok => ingestUrl
  | searchTopic_ok _ => searchTopic
  | ingestTopic_ok => ingestTopic
  | fetchDocuments_ok _ => fetchDocuments
  | sendMessage_ok _ => sendMessage
  | submitFeedback_ok => submitFeedback
  end.

#[global] Instance Thunk_eq_dec : EqDecision Thunk.
Proof. solve_decision. Defined.

#[global] Instance Flag_eq_dec : EqDecision Flag.
Proof. solve_decision. Defined.

(** The family whose call an outcome ends. *)
Definition outcome_family (o : Outcome) : Thunk :=
  match o with
  | succeeded f => fulfilled_family f
  | failed t _ => t
  end.

(** A thunk with the argument it is dispatched with.  A [File] is known by
    its name.  [ingestTopic_call] carries the [selectedUrls] its caller
    passes, which the payload creator's destructuring does not bind. *)
Inductive ThunkCall :=
  | createNewChat_call
  | fetchConversations_call
  | deleteConversation_call (conversationId : prim)
  | fetchConversationHistory_call (conversationId : prim)
  | uploadFile_call (file : string) (conversationId : prim)
  | ingestUrl_call (url : string) (conversationId : prim)
  | searchTopic_call (topic : string) (seenUrls : list string)
  | ingestTopic_call (topic : string) (conversationId : prim) (selectedUrls : list prim)
  | fetchDocuments_call (conversationId : prim)
  | sendMessage_call (arg : SendRequest)
  | submitFeedback_call (conversationId messageId : prim) (rating : Z).

Definition family (c : ThunkCall) : Thunk :=
  match c with
  | createNewChat_call => createNewChat
  | fetchConversations_call => fetchConversations
  | deleteConversation_call _ => deleteConversation
  | fetchConversationHistory_call _ => fetchConversationHistory
  | uploadFile_call _ _ => uploadFile
  | ingestUrl_call _ _ => ingestUrl
  | searchTopic_call _ _ => searchTopic
  | ingestTopic_call _ _ _ => ingestTopic
  | fetchDocuments_call _ => fetchDocuments
  | sendMessage_call _ => sendMessage
  | submitFeedback_call _ _ _ => submitFeedback
  end.

(** The HTTP call of each payload creator: method, path with the values
    interpolated into it, query parameter and body fields. *)
Inductive Request :=
  | POST_qa_chat_new (user_id : string)
  | GET_qa_conversations
  | DELETE_qa_conversations (conversationId : prim)
  | GET_qa_conversations_history (conversationId : prim)
  | POST_ingest_document (file : string) (conversation_id : prim)
  | POST_ingest_url (conversation_id : prim) (url : string)
  | POST_ingest_search_query
      (conversation_id : option prim) (topic : string) (seen_urls : option (list string))
  | GET_qa_conversations_documents (conversationId : prim)
  | POST_qa_conversations (conversationId : prim)
      (user_query : string) (selected_documents : list string)
  | POST_qa_chat_feedback (conversation_id message_id : prim) (rating : Z).

Definition payloadCreator (c : ThunkCall) : Request :=
  match c with
  | createNewChat_call => POST_qa_chat_new "general"
  | fetchConversations_call => GET_qa_conversations
  | deleteConversation_call conversationId => DELETE_qa_conversations conversationId
  | fetchConversationHistory_call conversationId =>
      GET_qa_conversations_history conversationId
  | uploadFile_call file conversationId => POST_ingest_document file conversationId
  | ingestUrl_call url conversationId => POST_ingest_url conversationId url
  | searchTopic_call topic seenUrls => POST_ingest_search_query None topic (Some seenUrls)
  | ingestTopic_call topic conversationId _ =>
      POST_ingest_search_query (Some conversationId) topic None
  | fetchDocuments_call conversationId => GET_qa_conversations_documents conversationId
  | sendMessage_call arg =>
      POST_qa_conversations (conversationId arg) (userQuery arg) (selected_documents arg)
  | submitFeedback_call conversationId messageId rating =>
      POST_qa_chat_feedback conversationId messageId rating
  end.

(** The store and the calls made so far. *)
Record App := mkApp {
  app_store : State;
  requests : list Request
}.

Definition app_dispatch (now : Z) (a : Action) (app : App) : App :=
  mkApp (generalReducer now (app_store app) a) (requests app).

(** [dispatch(thunk(arg))] up to the point where the call is outstanding:
    [pending] is reduced and the request is made. *)
Definition start (now : Z) (c : ThunkCall) (app : App) : App :=
  mkApp (generalReducer now (app_store app) (pending (family c)))
        (requests app ++ [payloadCreator c]).

(** The outstanding call ends and the thunk dispatches its last event. *)
Definition finish (now : Z) (o : Outcome) (app : App) : App :=
  app_dispatch now (settle o) app.

(** ** The Home page's handlers *)

Module Home.

(** The effect run on mount. *)
Definition useEffect (now : Z) : App -> App :=
  start now fetchConversations_call.

Definition handleCreateNewChat (now : Z) (app : App) : App :=
  app_dispatch now clearSelectedDocuments (start now createNewChat_call app).

Definition handleSelectConversation (now : Z) (conversationId : prim) : App -> App :=
  app_dispatch now (setCurrentConversationId conversationId).

Definition handleDeleteConversation (now : Z) (conversationId : prim) : App -> App :=
  start now (deleteConversation_call conversationId).

Definition handleToggleDocument (now : Z) (docName : string) : App -> App :=
  app_dispatch now (toggleSelectedDocument docName).

End Home.

(** [selectedDocuments.includes(doc)], the checkbox of the context panel. *)
Definition includes (arr : list string) (x : string) : bool := bool_decide (x ∈ arr).

(** ** The FileUpload tab *)

Module FileUpload.

Record t := mk { app : App; files : list string }.

(** [target_files] is [e.target.files], [None] when it is [null]. *)
Definition handleFileChange (target_files : option (list string)) (c : t) : t :=
  match target_files with
  | Some fs => mk (app c) fs
  | None => c
  end.

(** How an awaited [uploadFile] call ends. *)
Definition upload_outcome (answer : list string + AxiosError) : Outcome :=
  match answer with
  | inl document_names => succeeded (uploadFile_ok document_names)
  | inr e => failed uploadFile e
  end.

(** The [for ... of] loop: each call is awaited before the next starts;
    [backend i] is how the call for the [i]-th file ends. *)
Fixpoint uploadLoop (now : Z) (conversationId : prim)
    (backend : nat -> list string + AxiosError)
    (i : nat) (files : list string) (app : App) : App :=
  match files with
  | [] => app
  | file :: rest =>
      uploadLoop now conversationId backend (S i) rest
        (finish now (upload_outcome (backend i))
           (start now (uploadFile_call file conversationId) app))
  end.

(** The document names of the last call that succeeded, if one did. *)
Definition last_success (answers : list (list string + AxiosError))
    : option (list string) :=
  last (omap (fun a => match a with inl names => Some names | inr _ => None end)
             answers).

Definition handleUpload (now : Z) (conversationId : prim)
    (backend : nat -> list string + AxiosError) (c : t) : t :=
  if (length (files c) =? 0)%nat || negb (truthy conversationId) then c
  else
    let app1 := uploadLoop now conversationId backend 0 (files c) (app c) in
    mk (start now (fetchDocuments_call conversationId) app1) [].

End FileUpload.

(** ** The UrlIngestion tab *)

Module UrlIngestion.

Record t := mk { app : App; url : string }.

Definition ingest_outcome (answer : unit + AxiosError) : Outcome :=
  match answer with
  | inl _ => succeeded ingestUrl_ok
  | inr e => failed ingestUrl e
  end.

(** [answer] is how the awaited [ingestUrl] call ends. *)
Definition handleProcess (now : Z) (conversationId : prim)
    (answer : unit + AxiosError) (c : t) : t :=
  if negb (truthy (PStr (trim (url c)))) || negb (truthy conversationId) then c
  else
    let app1 :=
      finish now (ingest_outcome answer)
        (start now (ingestUrl_call (url c) conversationId) (app c)) in
    mk (start now (fetchDocuments_call conversationId) app1) "".

End UrlIngestion.

(** ** The TopicSearch tab *)

Module TopicSearch.

(** [selectedUrls] is a [Set], kept as the list of its elements. *)
Record t := mk { app : App; topic : string; selectedUrls : list prim }.

Definition Set_has (s : list prim) (x : prim) : bool := bool_decide (x ∈ s).

Definition Set_add (s : list prim) (x : prim) : list prim :=
  if Set_has s x then s else s ++ [x].

Definition Set_delete (s : list prim) (x : prim) : list prim :=
  filter (fun y => y <> x) s.

Definition handleSearch (now : Z) (c : t) : t :=
  if negb (truthy (PStr (trim (topic c)))) then c
  else mk (start now (searchTopic_call (topic c) []) (app c)) (topic c) (selectedUrls c).

(** The checkbox of the result with URL [result_url]. *)
Definition onCheckedChange (result_url : prim) (checked : bool) (c : t) : t :=
  let newSelected := selectedUrls c in
  mk (app c) (topic c)
     (if checked then Set_add newSelected result_url
      else Set_delete newSelected result_url).

Definition ingest_outcome (answer : unit + AxiosError) : Outcome :=
  match answer with
  | inl _ => succeeded ingestTopic_ok
  | inr e => failed ingestTopic e
  end.

(** [answer] is how the awaited [ingestTopic] call ends. *)
Definition handleIngestSelected (now : Z) (conversationId : prim)
    (answer : unit + AxiosError) (c : t) : t :=
  if (length (selectedUrls c) =? 0)%nat || negb (truthy conversationId) then c
  else
    let app1 :=
      finish now (ingest_outcome answer)
        (start now (ingestTopic_call (topic c) conversationId (selectedUrls c)) (app c)) in
    let app2 := app_dispatch now clearTopicSearchResults app1 in
    mk (start now (fetchDocuments_call conversationId) app2) "" [].

(** The "Clear Search" button. *)
Definition clearSearch (now : Z) (c : t) : t :=
  mk (app_dispatch now clearTopicSearchResults (app c)) (topic c) (selectedUrls c).

End TopicSearch.

(** ** The ChatMessages component's feedback dialog *)

Module ChatMessages.

Record t := mk {
  app : App;
  activeMessageId : prim;
  selectedRating : Z;
  isSubmittingFeedback : bool;
  feedbackError : json
}.

(** The component as first rendered over [app]. *)
Definition mount (app : App) : t := mk app PNull 0 false (JPrim (PStr "")).

Definition closeFeedback (c : t) : t :=
  mk (app c) PNull 0 false (JPrim (PStr "")).

(** [!isUser && msg.id && conversationId]: the message gets a dialog. *)
Definition hasDialog (conversationId : prim) (msg : Message.t) : bool :=
  negb (bool_decide (Message.role msg = user))
  && truthy (Message.id msg) && truthy conversationId.

(** The dialog of [msg] opens or closes. *)
Definition onOpenChange (msg : Message.t) (open : bool) (c : t) : t :=
  if open then
    mk (app c) (Message.id msg) 0 (isSubmittingFeedback c) (JPrim (PStr ""))
  else closeFeedback c.

(** The values of the star buttons, [[1, 2, 3, 4, 5]]. *)
Definition stars : list Z := [1; 2; 3; 4; 5].

(** A click on the [i]-th star button. *)
Definition onClickStar (i : nat) (c : t) : t :=
  match stars !! i with
  | Some value =>
      mk (app c) (activeMessageId c) value (isSubmittingFeedback c) (feedbackError c)
  | None => c
  end.

(** [obj.detail]; of the bindings of a key the last one counts. *)
Definition get_detail (fields : list (string * json)) : json :=
  foldl (fun acc kv => if String.eqb (fst kv) "detail" then snd kv else acc)
        (JPrim PUndefined) fields.

(** [typeof error === "string" ? error
     : error?.detail || "Unable to submit feedback."]. *)
Definition fallbackMessage (error : json) : json :=
  match error with
  | JPrim (PStr s) => JPrim (PStr s)
  | JObj fields =>
      if truthy_json (get_detail fields) then get_detail fields
      else JPrim (PStr "Unable to submit feedback.")
  | JPrim _ | JArr _ => JPrim (PStr "Unable to submit feedback.")
  end.

(** [answer] is how the awaited [submitFeedback] call ends; [unwrap] throws
    the rejected event's payload. *)
Definition handleSubmitFeedback (now : Z) (conversationId : prim)
    (answer : unit + AxiosError) (c : t) : t :=
  if negb (truthy conversationId) || negb (truthy (activeMessageId c))
     || (selectedRating c =? 0)
  then c
  else
    let app1 :=
      start now
        (submitFeedback_call conversationId (activeMessageId c) (selectedRating c))
        (app c) in
    match answer with
    | inl _ =>
        closeFeedback
          (mk (finish now (succeeded submitFeedback_ok) app1)
              (activeMessageId c) (selectedRating c) true (JPrim (PStr "")))
    | inr e =>
        mk (finish now (failed submitFeedback e) app1)
           (activeMessageId c) (selectedRating c) false
           (fallbackMessage (rejectWithValue e))
    end.

(** What can happen to the component. *)
Inductive Event :=
  | open_dialog (msg : Message.t)
  | close_dialog (msg : Message.t)
  | click_star (i : nat)
  | click_submit (answer : unit + AxiosError).

(** A dialog that is not rendered cannot open. *)
Definition step (now : Z) (conversationId : prim) (c : t) (e : Event) : t :=
  match e with
  | open_dialog msg =>
      if hasDialog conversationId msg then onOpenChange msg true c else c
  | close_dialog msg =>
      if hasDialog conversationId msg then onOpenChange msg false c else c
  | click_star i => onClickStar i c
  | click_submit answer => handleSubmitFeedback now conversationId answer c
  end.

Definition run (now : Z) (conversationId : prim) (c : t) (events : list Event) : t :=
  foldl (step now conversationId) c events.

End ChatMessages.

(** A feedback call for conversation [conversationId] that names a
    message and carries a rating from one to five stars. *)
Definition rated_feedback_request (conversationId : prim) (r : Request) : Prop :=
  exists messageId rating,
    r = POST_qa_chat_feedback conversationId messageId rating
    /\ truthy conversationId = true
    /\ truthy messageId = true
    /\ 1 <= rating <= 5.

(** * Properties *)

(** ** Arrays *)

Lemma indexOf_lower arr x : -1 <= indexOf arr x.
Proof.
  induction arr as [|y rest IH]; simpl; [lia|].
  case_bool_decide; [lia|].
  destruct (Z.eqb_spec (indexOf rest x) (-1)); lia.
Qed.

Lemma indexOf_absent arr x : indexOf arr x = -1 <-> x ∉ arr.
Proof.
  induction arr as [|y rest IH]; simpl.
  - split; [intros _; apply not_elem_of_nil | done].
  - pose proof (indexOf_lower rest x).
    case_bool_decide as Hyx.
    + subst. split; [lia | intros []; left].
    + destruct (Z.eqb_spec (indexOf rest x) (-1)) as [He|Hne].
      * split; [|done]. intros _. rewrite not_elem_of_cons. split; [congruence|].
        by apply IH.
      * split; [lia|]. rewrite not_elem_of_cons. intros [_ Hn].
        apply IH in Hn. lia.
Qed.

Lemma indexOf_present arr x :
  x ∈ arr ->
  0 <= indexOf arr x /\ arr !! Z.to_nat (indexOf arr x) = Some x.
Proof.
  induction arr as [|y rest IH]; simpl.
  - intros H. by apply elem_of_nil in H.
  - intros Hin. case_bool_decide as Hyx.
    + subst. done.
    + apply elem_of_cons in Hin as [->|Hin]; [done|].
      destruct (IH Hin) as [H0 Hlk].
      destruct (Z.eqb_spec (indexOf rest x) (-1)); [lia|].
      split; [lia|].
      replace (Z.to_nat (indexOf rest x + 1)) with (S (Z.to_nat (indexOf rest x))) by lia.
      done.
Qed.

Lemma indexOf_snoc_fresh arr x :
  x ∉ arr -> indexOf (arr ++ [x]) x = Z.of_nat (length arr).
Proof.
  induction arr as [|y rest IH]; simpl; intros Hn.
  - by rewrite bool_decide_true.
  - apply not_elem_of_cons in Hn as [Hne Hn].
    rewrite bool_decide_false by congruence.
    rewrite (IH Hn).
    destruct (Z.eqb_spec (Z.of_nat (length rest)) (-1)); lia.
Qed.

Lemma splice1_snoc arr x :
  splice1 (Z.of_nat (length arr)) (arr ++ [x]) = arr.
Proof.
  unfold splice1. rewrite Nat2Z.id.
  induction arr as [|y rest IH]; simpl; [done|]. by rewrite IH.
Qed.

Lemma Set_add_NoDup acc x : NoDup acc -> NoDup (Set_add acc x).
Proof.
  intros Hnd. unfold Set_add. case_bool_decide as Hin; [done|].
  apply NoDup_app. split_and!; [done| |apply NoDup_singleton].
  intros y Hy Hy'. apply list_elem_of_singleton in Hy'. by subst.
Qed.

Lemma Set_add_elem acc x y : y ∈ Set_add acc x <-> y ∈ acc \/ y = x.
Proof.
  unfold Set_add. case_bool_decide as Hin.
  - split; [by left|]. intros [?| ->]; done.
  - rewrite elem_of_app, list_elem_of_singleton. done.
Qed.

Lemma foldl_Set_add_NoDup payload acc :
  NoDup acc -> NoDup (foldl Set_add acc payload).
Proof.
  revert acc. induction payload as [|x rest IH]; simpl; intros acc Hnd; [done|].
  apply IH. by apply Set_add_NoDup.
Qed.

Lemma foldl_Set_add_elem payload acc y :
  y ∈ foldl Set_add acc payload <-> y ∈ acc \/ y ∈ payload.
Proof.
  revert acc. induction payload as [|x rest IH]; simpl; intros acc.
  - split; [by left|]. intros [?|H]; [done|]. by apply elem_of_nil in H.
  - rewrite IH, Set_add_elem, elem_of_cons. tauto.
Qed.

(** ** The selection subsystem *)

Section Selection.
Implicit Types (state : State) (d : string).

Lemma toggle_absent state d :
  d ∉ selectedDocuments state ->
  selectedDocuments (reducers.toggleSelectedDocument d state)
  = selectedDocuments state ++ [d].
Proof.
  intros Hn. unfold reducers.toggleSelectedDocument.
  apply indexOf_absent in Hn. rewrite Hn. done.
Qed.

Lemma toggle_present state d :
  d ∈ selectedDocuments state ->
  selectedDocuments (reducers.toggleSelectedDocument d state)
  = delete (Z.to_nat (indexOf (selectedDocuments state) d)) (selectedDocuments state)
  /\ selectedDocuments state !! Z.to_nat (indexOf (selectedDocuments state) d) = Some d.
Proof.
  intros Hin. unfold reducers.toggleSelectedDocument.
  destruct (indexOf_present _ _ Hin) as [H0 Hlk].
  destruct (Z.eqb_spec (indexOf (selectedDocuments state) d) (-1)); [lia|].
  done.
Qed.

Lemma toggle_NoDup state d :
  NoDup (selectedDocuments state) ->
  NoDup (selectedDocuments (reducers.toggleSelectedDocument d state)).
Proof.
  intros Hnd. destruct (decide (d ∈ selectedDocuments state)) as [Hin|Hn].
  - destruct (toggle_present _ _ Hin) as [-> _].
    eapply sublist_NoDup; [done | apply sublist_delete].
  - rewrite (toggle_absent _ _ Hn). apply NoDup_app.
    split_and!; [done| |apply NoDup_singleton].
    intros y Hy Hy'. apply list_elem_of_singleton in Hy'. by subst.
Qed.

(** Toggling a selected document of a duplicate-free selection leaves it
    unselected. *)
Lemma toggle_present_removes state d :
  NoDup (selectedDocuments state) ->
  d ∈ selectedDocuments state ->
  (d ∉ selectedDocuments (reducers.toggleSelectedDocument d state))
  /\ (selectedDocuments state
      ≡ₚ d :: selectedDocuments (reducers.toggleSelectedDocument d state)).
Proof.
  intros Hnd Hin. destruct (toggle_present _ _ Hin) as [Heq Hlk].
  rewrite Heq. pose proof (delete_Permutation _ _ _ Hlk) as Hperm.
  split; [|done].
  rewrite Hperm in Hnd. by apply NoDup_cons in Hnd as [? _].
Qed.

Lemma toggle_twice_perm state d :
  NoDup (selectedDocuments state) ->
  selectedDocuments
    (reducers.toggleSelectedDocument d (reducers.toggleSelectedDocument d state))
  ≡ₚ selectedDocuments state.
Proof.
  intros Hnd. destruct (decide (d ∈ selectedDocuments state)) as [Hin|Hn].
  - destruct (toggle_present_removes _ _ Hnd Hin) as [Hgone Hperm].
    rewrite (toggle_absent _ _ Hgone), Hperm.
    by rewrite Permutation_app_comm.
  - unfold reducers.toggleSelectedDocument at 1.
    rewrite (toggle_absent _ _ Hn), (indexOf_snoc_fresh _ _ Hn).
    destruct (Z.eqb_spec (Z.of_nat (length (selectedDocuments state))) (-1)); [lia|].
    simpl. by rewrite splice1_snoc.
Qed.

(** Every action keeps the selection free of duplicates. *)
Lemma reducer_selection_NoDup now state a :
  NoDup (selectedDocuments state) ->
  NoDup (selectedDocuments (generalReducer now state a)).
Proof.
  intros Hnd. destruct a as [p|d| |l| | | |m|t|f|t p]; simpl; try done.
  - by apply toggle_NoDup.
  - apply NoDup_nil_2.
  - apply foldl_Set_add_NoDup, NoDup_nil_2.
  - by destruct t.
  - destruct f as [c|cs|cid|ms|ns| |rs| |ds|r| ]; simpl; try done.
    + apply NoDup_nil_2.
    + unfold extraReducers.deleteConversation_fulfilled, seq; simpl.
      destruct (strict_eq _ _); simpl; [apply NoDup_nil_2 | done].
    + unfold extraReducers.sendMessage_fulfilled, seq; simpl.
      by destruct (truthy r).
  - by destruct t.
Qed.

Lemma reachable_selection_NoDup state :
  reachable state -> NoDup (selectedDocuments state).
Proof.
  induction 1 as [|now s a _ IH]; [apply NoDup_nil_2|].
  by apply reducer_selection_NoDup.
Qed.

End Selection.

(** ** Conversation lifecycle *)

(** C1. A fulfilled history fetch replaces [messages] by the transcript
    mapped record by record, in order: role ["human"] becomes [user], any
    other role value becomes [assistant], the content is the record's text
    and the id is kept.  The result does not depend on the state the event
    is reduced in, so it is the same whatever [currentConversationId] is,
    and [currentConversationId] itself is left as it was. *)
Theorem loadHistory_replaces_messages
    (now : Z) (state : State) (transcript : list HistoryRecord.t) :
  let state' :=
    generalReducer now state (fulfilled (fetchConversationHistory_ok transcript)) in
  length (messages state') = length transcript
  /\ (forall i r, transcript !! i = Some r ->
        exists m, messages state' !! i = Some m
          /\ (HistoryRecord.role r = PStr "human" -> Message.role m = user)
          /\ (HistoryRecord.role r <> PStr "human" -> Message.role m = assistant)
          /\ Message.content m = HistoryRecord.text r
          /\ Message.id m = HistoryRecord.id r)
  /\ (forall now2 state2,
        messages
          (generalReducer now2 state2 (fulfilled (fetchConversationHistory_ok transcript)))
        = messages state')
  /\ currentConversationId state' = currentConversationId state.
Proof.
  simpl. split_and!; [apply length_map| |done|done].
  intros i r Hr. eexists. split.
  - change (map ?f ?l) with (f <$> l). rewrite list_lookup_fmap, Hr. done.
  - simpl. unfold strict_eq. split_and!; [| |done|done].
    + intros ->. by rewrite bool_decide_true.
    + intros Hne. by rewrite bool_decide_false.
Qed.

(** The stale-response scenario of the specification: the history of
    conversation A arrives after the user selected conversation B. *)
Lemma loadHistory_replaces_messages_witness :
  let stateB :=
    generalReducer 5 (generalReducer 4 initialState (pending fetchConversationHistory))
      (setCurrentConversationId (PStr "B")) in
  let transcript :=
    [HistoryRecord.mk (PStr "human") (PStr "hi") (PStr "m1");
     HistoryRecord.mk (PStr "ai") (PStr "hello") (PStr "m2")] in
  exists m,
    messages (generalReducer 6 stateB (fulfilled (fetchConversationHistory_ok transcript)))
      !! 1%nat = Some m
    /\ (PStr "ai" = PStr "human" -> Message.role m = user)
    /\ (PStr "ai" <> PStr "human" -> Message.role m = assistant)
    /\ Message.content m = PStr "hello"
    /\ Message.id m = PStr "m2".
Proof.
  intros stateB transcript.
  exact (proj1 (proj2 (loadHistory_replaces_messages 6 stateB transcript))
           1%nat (HistoryRecord.mk (PStr "ai") (PStr "hello") (PStr "m2")) eq_refl).
Defined.

(** C2. A fulfilled conversation creation appends the returned record to
    [conversations], makes its [conversation_id] the current conversation
    and empties [messages], [documents] and [selectedDocuments]. *)
Theorem createConversation_fulfilled_spec
    (now : Z) (state : State) (record : Conversation.t) :
  let state' := generalReducer now state (fulfilled (createNewChat_ok record)) in
  conversations state' = conversations state ++ [record]
  /\ currentConversationId state' = Conversation.conversation_id record
  /\ messages state' = []
  /\ documents state' = []
  /\ selectedDocuments state' = [].
Proof. done. Qed.

(** C3. A fulfilled deletion of [id] keeps, in order, exactly the
    conversations whose [id] differs.  When [id] is the current conversation
    the current conversation becomes [null] and [messages], [documents] and
    [selectedDocuments] become empty; otherwise those four fields stay as
    they were. *)
Theorem deleteConversation_fulfilled_spec (now : Z) (state : State) (id : prim) :
  let state' := generalReducer now state (fulfilled (deleteConversation_ok id)) in
  conversations state'
    = filter (fun c => Conversation.id c <> id) (conversations state)
  /\ (forall c, c ∈ conversations state'
         <-> c ∈ conversations state /\ Conversation.id c <> id)
  /\ (currentConversationId state = id ->
        currentConversationId state' = PNull
        /\ messages state' = []
        /\ documents state' = []
        /\ selectedDocuments state' = [])
  /\ (currentConversationId state <> id ->
        currentConversationId state' = currentConversationId state
        /\ messages state' = messages state
        /\ documents state' = documents state
        /\ selectedDocuments state' = selectedDocuments state).
Proof.
  assert (Hconv : conversations
            (generalReducer now state (fulfilled (deleteConversation_ok id)))
          = filter (fun c => Conversation.id c <> id) (conversations state)).
  { simpl. unfold extraReducers.deleteConversation_fulfilled, seq; simpl.
    destruct (strict_eq (currentConversationId state) id); simpl;
      apply list_filter_iff; intros c; unfold strict_ne, strict_eq;
      case_bool_decide; naive_solver. }
  simpl. split_and!.
  - exact Hconv.
  - intros c. simpl in Hconv. rewrite Hconv, list_elem_of_filter. tauto.
  - intros Heq. unfold extraReducers.deleteConversation_fulfilled, seq, strict_eq; simpl.
    by rewrite bool_decide_true.
  - intros Hne. unfold extraReducers.deleteConversation_fulfilled, seq, strict_eq; simpl.
    by rewrite bool_decide_false.
Qed.

(** The specification's example: with conversation ["c1"] current, deleting
    ["c2"] leaves the four scoped fields alone. *)
Lemma deleteConversation_fulfilled_spec_witness :
  let c1 := Conversation.mk (PStr "c1") PUndefined (PStr "first") in
  let c2 := Conversation.mk (PStr "c2") PUndefined (PStr "second") in
  let m := Message.mk user (PStr "hi") (PStr "user_1") in
  let state :=
    mkState [c1; c2] (PStr "c1") [m] ["a.pdf"] ["a.pdf"] [] false false false false
      (JPrim PNull) in
  let state' := generalReducer 7 state (fulfilled (deleteConversation_ok (PStr "c2"))) in
  PStr "c1" <> PStr "c2"
  /\ currentConversationId state' = PStr "c1"
  /\ messages state' = [m]
  /\ documents state' = ["a.pdf"]
  /\ selectedDocuments state' = ["a.pdf"].
Proof.
  intros c1 c2 m state state'.
  assert (Hne : PStr "c1" <> PStr "c2") by discriminate.
  split; [exact Hne|].
  exact (proj2 (proj2 (proj2
           (deleteConversation_fulfilled_spec 7 state (PStr "c2")))) Hne).
Defined.

(** Deletion matches on the record's [id] field only: a record that the
    create endpoint keyed by [conversation_id] alone stays listed, while the
    current conversation is reset. *)
Example deleteConversation_matches_id_field :
  let record := Conversation.mk PUndefined (PStr "c9") (PStr "New chat") in
  let state := generalReducer 1 initialState (fulfilled (createNewChat_ok record)) in
  let state' := generalReducer 2 state (fulfilled (deleteConversation_ok (PStr "c9"))) in
  currentConversationId state = PStr "c9"
  /\ conversations state' = [record]
  /\ currentConversationId state' = PNull.
Proof. done. Qed.

(** ** Message exchange *)

Lemma truthy_PStr s : truthy (PStr s) = true <-> s <> "".
Proof.
  simpl. destruct (String.eqb_spec s ""); simpl; split; congruence.
Qed.

Lemma hasSelectedDocuments_true state :
  hasSelectedDocuments state = true <-> selectedDocuments state <> [].
Proof.
  unfold hasSelectedDocuments. destruct (selectedDocuments state); simpl; split;
    done.
Qed.

(** A send that passes the gate: what the handler leaves behind. *)
Lemma handleSendMessage_valid now w q :
  inputElement w = Some q ->
  trim q <> "" ->
  truthy (currentConversationId (store w)) = true ->
  selectedDocuments (store w) <> [] ->
  handleSendMessage now w
  = mkWorld
      ((set_isSending true ;; set_error (JPrim PNull))
         (set_messages
            (messages (store w)
               ++ [Message.mk user (PStr q) (PStr ("user_" +:+ pretty now))])
            (store w)))
      (Some "")
      (gateway w
         ++ [mkSendRequest (currentConversationId (store w)) q
               (selectedDocuments (store w))]).
Proof.
  intros Hin Hq Hc Hs. unfold handleSendMessage. rewrite Hin; simpl default.
  apply truthy_PStr in Hq. apply hasSelectedDocuments_true in Hs.
  rewrite Hq, Hc, Hs. simpl. rewrite Hin. done.
Qed.

(** C4. With no current conversation, with no selected document, or with
    a query that is empty after trimming, the send handler changes nothing:
    no request is handed to the Backend Gateway, [messages] and [error]
    are what they were, and so is the rest of the world. *)
Theorem send_gate_is_noop (now : Z) (w : World) :
  currentConversationId (store w) = PNull
  \/ selectedDocuments (store w) = []
  \/ trim (default "" (inputElement w)) = "" ->
  let w' := handleSendMessage now w in
  gateway w' = gateway w
  /\ messages (store w') = messages (store w)
  /\ error (store w') = error (store w)
  /\ w' = w.
Proof.
  intros Hgate.
  assert (Hnoop : handleSendMessage now w = w).
  { unfold handleSendMessage, hasSelectedDocuments.
    destruct Hgate as [Hc|[Hs|Hq]].
    - rewrite Hc. simpl. by rewrite orb_true_r.
    - rewrite Hs. simpl. by rewrite !orb_true_r.
    - by rewrite Hq. }
  simpl. by rewrite Hnoop.
Qed.

(** A submit with documents selected and a question typed, before any
    conversation was created or chosen. *)
Lemma send_gate_is_noop_witness :
  let st := generalReducer 1 initialState (setSelectedDocuments ["a.pdf"]) in
  let w := mkWorld st (Some "What is X?") [] in
  (currentConversationId (store w) = PNull
   \/ selectedDocuments (store w) = []
   \/ trim (default "" (inputElement w)) = "")
  /\ gateway (handleSendMessage 2 w) = []
  /\ messages (store (handleSendMessage 2 w)) = []
  /\ error (store (handleSendMessage 2 w)) = JPrim PNull.
Proof.
  intros st w.
  assert (Hgate : currentConversationId (store w) = PNull
                  \/ selectedDocuments (store w) = []
                  \/ trim (default "" (inputElement w)) = "")
    by (left; reflexivity).
  split; [exact Hgate|].
  destruct (send_gate_is_noop 2 w Hgate) as (Hg & Hm & He & _).
  exact (conj Hg (conj Hm He)).
Defined.

(** C5. A send that passes the gate appends the user message with the
    query text, and hands the request to the gateway, when the handler
    returns, that is before the call resolves.  When the call then succeeds
    with answer string [answer], an assistant message follows the user
    message exactly when [answer] is not empty; when it fails, [messages]
    stays as the handler left it.  In whatever state the call resolves, the
    messages present stay in place as a prefix of the new list. *)
Theorem send_appends_in_order (now : Z) (w : World) (q : string) :
  inputElement w = Some q ->
  trim q <> "" ->
  truthy (currentConversationId (store w)) = true ->
  selectedDocuments (store w) <> [] ->
  let userMessage := Message.mk user (PStr q) (PStr ("user_" +:+ pretty now)) in
  let w1 := handleSendMessage now w in
  messages (store w1) = messages (store w) ++ [userMessage]
  /\ gateway w1
     = gateway w
       ++ [mkSendRequest (currentConversationId (store w)) q
             (selectedDocuments (store w))]
  /\ (forall now' answer,
        messages (store (settle_sendMessage now' (inl (PStr answer)) w1))
        = if decide (answer = "")
          then messages (store w) ++ [userMessage]
          else messages (store w)
               ++ [userMessage;
                   Message.mk assistant (PStr answer) (PStr ("ai_" +:+ pretty now'))])
  /\ (forall now' e,
        messages (store (settle_sendMessage now' (inr e) w1))
        = messages (store w) ++ [userMessage])
  /\ (forall now' result w',
        messages (store w')
          `prefix_of` messages (store (settle_sendMessage now' result w'))).
Proof.
  intros Hin Hq Hc Hs userMessage w1. subst w1.
  rewrite (handleSendMessage_valid now w q Hin Hq Hc Hs). simpl.
  split_and!; [done|done| |done|].
  - intros now' answer. unfold extraReducers.sendMessage_fulfilled, seq; simpl.
    destruct (decide (answer = "")) as [->|Hne]; simpl; [done|].
    apply truthy_PStr in Hne. simpl in Hne. rewrite Hne. simpl.
    by rewrite <- app_assoc.
  - intros now' [response|e] w'; simpl; [|done].
    unfold extraReducers.sendMessage_fulfilled, seq; simpl.
    destruct (truthy response); simpl; [by apply prefix_app_r|done].
Qed.

(** The specification's example: query ["What is X?"], answer ["X is Y"]. *)
Lemma send_appends_in_order_witness :
  let st :=
    generalReducer 2
      (generalReducer 1 initialState (setCurrentConversationId (PStr "c1")))
      (toggleSelectedDocument "a.pdf") in
  let w := mkWorld st (Some "What is X?") [] in
  (inputElement w = Some "What is X?"
   /\ trim "What is X?" <> ""
   /\ truthy (currentConversationId (store w)) = true
   /\ selectedDocuments (store w) <> [])
  /\ messages (store (handleSendMessage 1700000000123 w))
     = [Message.mk user (PStr "What is X?") (PStr "user_1700000000123")]
  /\ messages (store (settle_sendMessage 1700000000456 (inl (PStr "X is Y"))
                        (handleSendMessage 1700000000123 w)))
     = [Message.mk user (PStr "What is X?") (PStr "user_1700000000123");
        Message.mk assistant (PStr "X is Y") (PStr "ai_1700000000456")].
Proof.
  intros st w.
  assert (H1 : inputElement w = Some "What is X?") by reflexivity.
  assert (H2 : trim "What is X?" <> "") by (vm_compute; discriminate).
  assert (H3 : truthy (currentConversationId (store w)) = true) by reflexivity.
  assert (H4 : selectedDocuments (store w) <> []) by (vm_compute; discriminate).
  split; [exact (conj H1 (conj H2 (conj H3 H4)))|].
  destruct (send_appends_in_order 1700000000123 w "What is X?" H1 H2 H3 H4)
    as (Hsent & _ & Hok & _).
  split; [exact Hsent | exact (Hok 1700000000456 "X is Y")].
Defined.

Lemma passesGate_input w :
  passesGate w -> exists q, inputElement w = Some q /\ trim q <> "".
Proof.
  intros (Hq & _ & _). destruct (inputElement w) as [q|]; simpl in Hq; [eauto|done].
Qed.

Lemma user_id_inj (now1 now2 : Z) :
  PStr ("user_" +:+ pretty now1) = PStr ("user_" +:+ pretty now2) <-> now1 = now2.
Proof.
  split; [|by intros ->]. intros Heq.
  injection Heq as Heq. apply (inj pretty). exact Heq.
Qed.

(** C6, as the code has it.  The identifier of the optimistic user message
    is ["user_"] followed by the clock reading in decimal, so two sends that
    pass the gate get distinct identifiers exactly when their clock
    readings differ. *)
Theorem user_message_ids_differ_iff_clock_differs
    (now1 now2 : Z) (w1 w2 : World) :
  passesGate w1 ->
  passesGate w2 ->
  exists m1 m2,
    last (messages (store (handleSendMessage now1 w1))) = Some m1
    /\ last (messages (store (handleSendMessage now2 w2))) = Some m2
    /\ Message.role m1 = user
    /\ Message.role m2 = user
    /\ Message.id m1 = PStr ("user_" +:+ pretty now1)
    /\ Message.id m2 = PStr ("user_" +:+ pretty now2)
    /\ (Message.id m1 <> Message.id m2 <-> now1 <> now2).
Proof.
  intros Hg1 Hg2.
  destruct (passesGate_input _ Hg1) as (q1 & Hin1 & Hq1).
  destruct (passesGate_input _ Hg2) as (q2 & Hin2 & Hq2).
  destruct Hg1 as (_ & Hc1 & Hs1), Hg2 as (_ & Hc2 & Hs2).
  rewrite (handleSendMessage_valid now1 w1 q1 Hin1 Hq1 Hc1 Hs1).
  rewrite (handleSendMessage_valid now2 w2 q2 Hin2 Hq2 Hc2 Hs2).
  simpl. rewrite !last_snoc.
  do 2 eexists. split_and!; try reflexivity.
  simpl Message.id. by rewrite user_id_inj.
Qed.

(** Two sends one second apart. *)
Lemma user_message_ids_differ_iff_clock_differs_witness :
  let st :=
    generalReducer 2
      (generalReducer 1 initialState (setCurrentConversationId (PStr "c1")))
      (toggleSelectedDocument "a.pdf") in
  let w1 := mkWorld st (Some "What is X?") [] in
  let w2 := mkWorld (store (handleSendMessage 1700000000123 w1)) (Some "And Y?")
              (gateway (handleSendMessage 1700000000123 w1)) in
  passesGate w1 /\ passesGate w2
  /\ exists m1 m2,
       last (messages (store (handleSendMessage 1700000000123 w1))) = Some m1
       /\ last (messages (store (handleSendMessage 1700000001123 w2))) = Some m2
       /\ Message.role m1 = user
       /\ Message.role m2 = user
       /\ Message.id m1 = PStr "user_1700000000123"
       /\ Message.id m2 = PStr "user_1700000001123"
       /\ (Message.id m1 <> Message.id m2 <-> 1700000000123 <> 1700000001123).
Proof.
  intros st w1 w2.
  assert (Hg1 : passesGate w1).
  { split_and!; [vm_compute; discriminate | reflexivity | vm_compute; discriminate]. }
  assert (Hg2 : passesGate w2).
  { split_and!; [vm_compute; discriminate | reflexivity | vm_compute; discriminate]. }
  split; [exact Hg1|]. split; [exact Hg2|].
  exact (user_message_ids_differ_iff_clock_differs
           1700000000123 1700000001123 w1 w2 Hg1 Hg2).
Defined.

(** C6 fails as stated: two sends that pass the gate while the clock reads
    the same millisecond carry the same identifier.  Here the first call
    fails at once, the user types a second question and sends it. *)
Lemma user_message_ids_collide :
  let st :=
    generalReducer 2
      (generalReducer 1 initialState (setCurrentConversationId (PStr "c1")))
      (toggleSelectedDocument "a.pdf") in
  let w1 := mkWorld st (Some "What is X?") [] in
  let w1' := handleSendMessage 1700000000123 w1 in
  let w1'' :=
    settle_sendMessage 1700000000123
      (inr (mkAxiosError None "Network Error")) w1' in
  let w2 := mkWorld (store w1'') (Some "And Y?") (gateway w1'') in
  let w2' := handleSendMessage 1700000000123 w2 in
  passesGate w1 /\ passesGate w2
  /\ exists m1 m2,
       messages (store w2') = [m1; m2]
       /\ Message.content m1 = PStr "What is X?"
       /\ Message.content m2 = PStr "And Y?"
       /\ length (gateway w2') = 2%nat
       /\ ~ (Message.id m1 <> Message.id m2).
Proof.
  intros st w1 w1' w1'' w2 w2'.
  split; [split_and!; [vm_compute; discriminate | reflexivity
                      | vm_compute; discriminate]|].
  split; [split_and!; [vm_compute; discriminate | reflexivity
                      | vm_compute; discriminate]|].
  exists (Message.mk user (PStr "What is X?") (PStr "user_1700000000123")),
         (Message.mk user (PStr "And Y?") (PStr "user_1700000000123")).
  split_and!; [vm_compute; reflexivity | reflexivity | reflexivity
              | vm_compute; reflexivity | intros H; by apply H].
Qed.

(** ** Request lifecycle *)

(** C7. A rejected event of any operation family clears the flag the
    specification's table gives the family and stores the event's payload in
    [error], whatever [error] held before.  The payload a failed call
    rejects with is the response body when the backend sent an object or an
    array, or a truthy primitive, and the error's message text otherwise. *)
Theorem rejected_clears_flag_and_overwrites_error
    (now : Z) (state : State) (t : Thunk) :
  (forall payload,
     let state' := generalReducer now state (rejected t payload) in
     flag (category t) state' = false /\ error state' = payload)
  /\ (forall fields msg,
        error (generalReducer now state
                 (settle (failed t (mkAxiosError (Some (JObj fields)) msg))))
        = JObj fields)
  /\ (forall items msg,
        error (generalReducer now state
                 (settle (failed t (mkAxiosError (Some (JArr items)) msg))))
        = JArr items)
  /\ (forall p msg,
        error (generalReducer now state
                 (settle (failed t (mkAxiosError (Some (JPrim p)) msg))))
        = if truthy p then JPrim p else JPrim (PStr msg))
  /\ (forall msg,
        error (generalReducer now state (settle (failed t (mkAxiosError None msg))))
        = JPrim (PStr msg)).
Proof.
  split_and!.
  - intros payload. by destruct t.
  - intros fields msg. by destruct t.
  - intros items msg. by destruct t.
  - intros p msg. unfold settle, rejectWithValue; simpl. by destruct t, (truthy p).
  - intros msg. by destruct t.
Qed.

(** C8, as the code has it.  A feedback event leaves [messages] and every
    field other than [isLoading] and [error] unchanged; [pending] sets
    [isLoading], [fulfilled] and [rejected] clear it, and [rejected] stores
    its payload in [error]. *)
Theorem submitFeedback_frame (now : Z) (state : State) (payload : json) :
  let p := generalReducer now state (pending submitFeedback) in
  let f := generalReducer now state (fulfilled submitFeedback_ok) in
  let r := generalReducer now state (rejected submitFeedback payload) in
  (same_outside_isLoading_error state p
   /\ isLoading p = true /\ error p = error state)
  /\ (same_outside_isLoading_error state f
      /\ isLoading f = false /\ error f = error state)
  /\ (same_outside_isLoading_error state r
      /\ isLoading r = false /\ error r = payload).
Proof. unfold same_outside_isLoading_error. simpl. done. Qed.

(** C8 fails as stated: a feedback submission raises [isLoading], and a
    failed one writes [error]. *)
Lemma submitFeedback_changes_state :
  isLoading (generalReducer 0 initialState (pending submitFeedback)) = true
  /\ isLoading initialState = false
  /\ error (generalReducer 0 initialState
              (rejected submitFeedback (JPrim (PStr "Network Error"))))
     = JPrim (PStr "Network Error")
  /\ error initialState = JPrim PNull
  /\ ~ (forall now state a,
          a = pending submitFeedback \/ a = fulfilled submitFeedback_ok
          \/ (exists payload, a = rejected submitFeedback payload) ->
          generalReducer now state a = state).
Proof.
  split_and!; try reflexivity.
  intros H. specialize (H 0 initialState (pending submitFeedback) (or_introl eq_refl)).
  discriminate H.
Qed.

(** ** Selection invariant and round trip *)

(** C10. [selectedDocuments] never holds an identifier twice: the initial
    selection is duplicate free and every action keeps it so.  A toggle
    appends the identifier only when it is absent and otherwise removes it,
    [setSelectedDocuments] stores its payload without duplicates, and any
    other action leaves the selection alone or empties it. *)
Theorem selectedDocuments_NoDup_invariant (now : Z) (state : State) (a : Action) :
  NoDup (selectedDocuments state) ->
  let state' := generalReducer now state a in
  NoDup (selectedDocuments initialState)
  /\ NoDup (selectedDocuments state')
  /\ match a with
     | toggleSelectedDocument d =>
         (d ∉ selectedDocuments state ->
          selectedDocuments state' = selectedDocuments state ++ [d])
         /\ (d ∈ selectedDocuments state ->
             (d ∉ selectedDocuments state')
             /\ (selectedDocuments state ≡ₚ d :: selectedDocuments state'))
     | setSelectedDocuments payload =>
         selectedDocuments state' = Array_from_Set payload
         /\ NoDup (Array_from_Set payload)
         /\ (forall d, d ∈ Array_from_Set payload <-> d ∈ payload)
     | _ =>
         selectedDocuments state' = selectedDocuments state
         \/ selectedDocuments state' = []
     end.
Proof.
  intros Hnd state'. subst state'.
  split; [apply NoDup_nil_2|].
  split; [by apply reducer_selection_NoDup|].
  destruct a as [p|d| |l| | | |m|t|f|t p]; simpl; try (by left); try (by right).
  - split; [apply toggle_absent | by apply toggle_present_removes].
  - split_and!; [done | apply foldl_Set_add_NoDup, NoDup_nil_2 |].
    intros d. unfold Array_from_Set. rewrite foldl_Set_add_elem.
    split; [intros [H|H]; [by apply elem_of_nil in H | done] | by right].
  - left. by destruct t.
  - destruct f as [c|cs|cid|ms|ns| |rs| |ds|r| ]; simpl; try (by left); try (by right).
    + unfold extraReducers.deleteConversation_fulfilled, seq; simpl.
      destruct (strict_eq _ _); simpl; [by right | by left].
    + unfold extraReducers.sendMessage_fulfilled, seq; simpl.
      left. by destruct (truthy r).
  - left. by destruct t.
Qed.

(** Selecting a document that is already selected, on a selection
    [setSelectedDocuments] built from a payload that names it twice. *)
Lemma selectedDocuments_NoDup_invariant_witness :
  let state :=
    generalReducer 1 initialState (setSelectedDocuments ["a.pdf"; "b.pdf"; "a.pdf"]) in
  NoDup (selectedDocuments state)
  /\ selectedDocuments state = ["a.pdf"; "b.pdf"]
  /\ NoDup (selectedDocuments (generalReducer 2 state (toggleSelectedDocument "a.pdf"))).
Proof.
  intros state.
  assert (Hnd : NoDup (selectedDocuments state)).
  { apply (bool_decide_unpack (NoDup (selectedDocuments state))).
    vm_compute. exact I. }
  split; [exact Hnd|]. split; [reflexivity|].
  exact (proj1 (proj2
           (selectedDocuments_NoDup_invariant 2 state (toggleSelectedDocument "a.pdf") Hnd))).
Defined.

(** C9. In every state of a session, toggling the same document twice
    gives back the selection it started from, as a set of identifiers (and
    as a list up to the order of its elements). *)
Theorem toggle_twice_roundtrip (now1 now2 : Z) (state : State) (d : string) :
  reachable state ->
  let state2 :=
    generalReducer now2 (generalReducer now1 state (toggleSelectedDocument d))
      (toggleSelectedDocument d) in
  list_to_set (selectedDocuments state2) =@{gset string}
    list_to_set (selectedDocuments state)
  /\ selectedDocuments state2 ≡ₚ selectedDocuments state.
Proof.
  intros Hr state2. subst state2. simpl.
  pose proof (toggle_twice_perm state d (reachable_selection_NoDup _ Hr)) as Hperm.
  split; [by rewrite Hperm | done].
Qed.

(** Unselecting and reselecting the first of two selected documents. *)
Lemma toggle_twice_roundtrip_witness :
  let state :=
    generalReducer 2 (generalReducer 1 initialState (toggleSelectedDocument "a.pdf"))
      (toggleSelectedDocument "b.pdf") in
  let state2 :=
    generalReducer 4 (generalReducer 3 state (toggleSelectedDocument "a.pdf"))
      (toggleSelectedDocument "a.pdf") in
  reachable state
  /\ selectedDocuments state = ["a.pdf"; "b.pdf"]
  /\ selectedDocuments state2 = ["b.pdf"; "a.pdf"]
  /\ list_to_set (selectedDocuments state2) =@{gset string}
       list_to_set (selectedDocuments state).
Proof.
  intros state state2.
  assert (Hr : reachable state) by (do 2 apply reachable_step; apply reachable_init).
  split; [exact Hr|]. split; [reflexivity|]. split; [reflexivity|].
  exact (proj1 (toggle_twice_roundtrip 3 4 state "a.pdf" Hr)).
Defined.

(** The round trip needs a selection without duplicates: it would fail on
    a selection naming the document twice, which no session reaches. *)
Example toggle_twice_on_duplicates :
  let state := set_selectedDocuments ["a.pdf"; "a.pdf"] initialState in
  selectedDocuments
    (generalReducer 2 (generalReducer 1 state (toggleSelectedDocument "a.pdf"))
       (toggleSelectedDocument "a.pdf"))
  = [].
Proof. reflexivity. Qed.


(** * Further properties of the slice and of the components *)

(** ** The reducer's lifecycle events *)

(** X1. A [pending] event raises the flag of its family's category and no
    other flag, changes none of the data fields, and resets [error] to
    [null] except for the five families (list, delete, history, documents,
    feedback) whose [pending] case keeps it. *)
Theorem pending_raises_only_its_flag (now : Z) (state : State) (t : Thunk) :
  let state' := generalReducer now state (pending t) in
  (forall c, flag c state' = if bool_decide (c = category t) then true else flag c state)
  /\ conversations state' = conversations state
  /\ currentConversationId state' = currentConversationId state
  /\ messages state' = messages state
  /\ documents state' = documents state
  /\ selectedDocuments state' = selectedDocuments state
  /\ topicSearchResults state' = topicSearchResults state
  /\ error state'
     = if bool_decide (t ∈ [fetchConversations; deleteConversation;
                            fetchConversationHistory; fetchDocuments; submitFeedback])
       then error state else JPrim PNull.
Proof.
  simpl. split_and!; try (by destruct t).
  intros c. by destruct t, c.
Qed.

(** X2. A [fulfilled] event clears the flag of its family's category and
    no other flag, and never writes [error]: a success does not acknowledge
    an error stored earlier. *)
Theorem fulfilled_clears_only_its_flag (now : Z) (state : State) (f : Fulfilled) :
  let state' := generalReducer now state (fulfilled f) in
  (forall c, flag c state'
             = if bool_decide (c = category (fulfilled_family f)) then false
               else flag c state)
  /\ error state' = error state.
Proof.
  simpl. split.
  - intros c. destruct f as [x|x|x|x|x| |x| |x|x| ]; simpl;
      unfold extraReducers.deleteConversation_fulfilled,
             extraReducers.sendMessage_fulfilled, seq; simpl;
      try destruct (strict_eq _ _); try destruct (truthy x); by destruct c.
  - destruct f as [x|x|x|x|x| |x| |x|x| ]; simpl;
      unfold extraReducers.deleteConversation_fulfilled,
             extraReducers.sendMessage_fulfilled, seq; simpl;
      try destruct (strict_eq _ _); try destruct (truthy x); done.
Qed.

Lemma settle_clears_flag now state o :
  flag (category (outcome_family o)) (generalReducer now state (settle o)) = false.
Proof.
  destruct o as [f|t e]; simpl.
  - destruct f as [x|x|x|x|x| |x| |x|x| ]; simpl;
      unfold extraReducers.deleteConversation_fulfilled,
             extraReducers.sendMessage_fulfilled, seq; simpl;
      try destruct (strict_eq _ _); try destruct (truthy x); done.
  - by destruct t.
Qed.

(** X3. Two operations of one category share one flag: when the first of
    two outstanding calls ends, in success or in failure, the flag is down
    although the second call is still outstanding. *)
Theorem shared_flag_drops_at_first_settlement
    (now1 now2 now3 : Z) (state : State) (t2 : Thunk) (o : Outcome) :
  category (outcome_family o) = category t2 ->
  let state2 :=
    generalReducer now2 (generalReducer now1 state (pending (outcome_family o)))
      (pending t2) in
  flag (category t2) state2 = true
  /\ flag (category t2) (generalReducer now3 state2 (settle o)) = false.
Proof.
  intros Hc. simpl. split.
  - by destruct t2.
  - rewrite <- Hc. apply settle_clears_flag.
Qed.

(** A document refresh ends while a feedback submission is outstanding. *)
Lemma shared_flag_drops_at_first_settlement_witness :
  let o := succeeded (fetchDocuments_ok ["a.pdf"]) in
  category (outcome_family o) = category submitFeedback
  /\ isLoading
       (generalReducer 3
          (generalReducer 2 (generalReducer 1 initialState (pending fetchDocuments))
             (pending submitFeedback))
          (settle o)) = false.
Proof.
  intros o.
  assert (Hc : category (outcome_family o) = category submitFeedback) by reflexivity.
  split; [exact Hc|].
  exact (proj2 (shared_flag_drops_at_first_settlement 1 2 3 initialState
                  submitFeedback o Hc)).
Defined.

(** X4. Which actions write which data field.  [currentConversationId]
    changes only by [setCurrentConversationId] and by a fulfilled creation
    or deletion; [conversations] only by a fulfilled creation, listing or
    deletion; [documents] only by a fulfilled creation, deletion, upload or
    document listing; [messages] only by [clearMessages],
    [addLocalMessage] and a fulfilled creation, deletion, history fetch or
    send.  No [pending] or [rejected] event writes any of them. *)
Theorem data_fields_writers (now : Z) (state : State) (a : Action) :
  let state' := generalReducer now state a in
  match a with
  | setCurrentConversationId _
  | fulfilled (createNewChat_ok _) | fulfilled (deleteConversation_ok _) => True
  | _ => currentConversationId state' = currentConversationId state
  end
  /\ match a with
     | fulfilled (createNewChat_ok _) | fulfilled (fetchConversations_ok _)
     | fulfilled (deleteConversation_ok _) => True
     | _ => conversations state' = conversations state
     end
  /\ match a with
     | fulfilled (createNewChat_ok _) | fulfilled (deleteConversation_ok _)
     | fulfilled (uploadFile_ok _) | fulfilled (fetchDocuments_ok _) => True
     | _ => documents state' = documents state
     end
  /\ match a with
     | clearMessages | addLocalMessage _
     | fulfilled (createNewChat_ok _) | fulfilled (deleteConversation_ok _)
     | fulfilled (fetchConversationHistory_ok _) | fulfilled (sendMessage_ok _) => True
     | _ => messages state' = messages state
     end.
Proof.
  simpl. destruct a as [p|d| |l| | | |m|t|f|t p]; simpl;
    try (split_and!; done);
    try (split_and!; unfold reducers.toggleSelectedDocument;
         by destruct (negb _)).
  - split_and!; by destruct t.
  - destruct f as [x|x|x|x|x| |x| |x|x| ]; simpl; split_and!; try done;
      unfold extraReducers.sendMessage_fulfilled, seq; simpl;
      by destruct (truthy x).
  - split_and!; by destruct t.
Qed.

(** X5. Reducing the fulfilled deletion of one id a second time changes
    nothing. *)
Theorem deleteConversation_fulfilled_idempotent (now1 now2 : Z) (state : State) (id : prim) :
  generalReducer now2
    (generalReducer now1 state (fulfilled (deleteConversation_ok id)))
    (fulfilled (deleteConversation_ok id))
  = generalReducer now1 state (fulfilled (deleteConversation_ok id)).
Proof.
  simpl. unfold extraReducers.deleteConversation_fulfilled, seq; simpl.
  assert (Hf : forall l : list Conversation.t,
             filter (fun c => strict_ne (Conversation.id c) id)
                    (filter (fun c => strict_ne (Conversation.id c) id) l)
             = filter (fun c => strict_ne (Conversation.id c) id) l).
  { intros l. rewrite list_filter_filter. apply list_filter_iff. tauto. }
  destruct (strict_eq (currentConversationId state) id) eqn:Hcur; simpl.
  - rewrite Hf. by destruct (strict_eq PNull id).
  - rewrite Hcur. simpl. by rewrite Hf.
Qed.

(** ** Selection *)

Lemma foldl_Set_add_filter (n : nat) :
  forall (l acc : list string),
    (length l <= n)%nat ->
    foldl Set_add acc l
    = acc ++ foldl Set_add [] (filter (fun y => y ∉ acc) l).
Proof.
  induction n as [|n IH]; intros l acc Hlen.
  - destruct l; [|simpl in Hlen; lia]. simpl. by rewrite app_nil_r.
  - destruct l as [|y l']; [simpl; by rewrite app_nil_r|].
    simpl in Hlen. simpl foldl at 1.
    unfold Set_add at 2. case_bool_decide as Hin.
    + rewrite filter_cons_False by tauto. apply IH. lia.
    + rewrite filter_cons_True by done. simpl.
      change (Set_add [] y) with [y].
      rewrite (IH l' (acc ++ [y])) by lia.
      rewrite (IH (filter (fun y0 => y0 ∉ acc) l') [y]).
      2:{ pose proof (length_filter (fun y0 => y0 ∉ acc) l'). lia. }
      rewrite <- app_assoc. do 3 f_equal.
      rewrite list_filter_filter. apply list_filter_iff.
      intros z. rewrite elem_of_app. tauto.
Qed.

Lemma Array_from_Set_cons x l :
  Array_from_Set (x :: l) = x :: Array_from_Set (filter (fun y => y <> x) l).
Proof.
  unfold Array_from_Set. simpl. change (Set_add [] x) with [x].
  rewrite (foldl_Set_add_filter (length l) l [x]) by done. simpl. f_equal.
  f_equal. apply list_filter_iff. intros z. rewrite list_elem_of_singleton. done.
Qed.

Lemma filter_ne_absent (x : string) (l : list string) :
  x ∉ l -> filter (fun y => y <> x) l = l.
Proof.
  induction l as [|y l IH]; [done|]. intros Hx.
  apply not_elem_of_cons in Hx as [Hne Hx].
  rewrite filter_cons_True by congruence. by rewrite IH.
Qed.

Lemma Array_from_Set_NoDup_id l : NoDup l -> Array_from_Set l = l.
Proof.
  induction 1 as [|x l Hx Hnd IH]; [done|].
  by rewrite Array_from_Set_cons, (filter_ne_absent _ _ Hx), IH.
Qed.

(** X6. [setSelectedDocuments] stores the first occurrence of each name in
    the payload, in the payload's order: the first name, followed by what
    the rest of the payload without that name gives.  A payload without
    duplicates is stored as it is. *)
Theorem setSelectedDocuments_keeps_first_occurrences
    (now : Z) (state : State) (payload : list string) :
  let stored l := selectedDocuments (generalReducer now state (setSelectedDocuments l)) in
  stored [] = []
  /\ (forall x l, stored (x :: l) = x :: stored (filter (fun y => y <> x) l))
  /\ stored (stored payload) = stored payload
  /\ (NoDup payload -> stored payload = payload).
Proof.
  simpl. split_and!; [done|apply Array_from_Set_cons| |apply Array_from_Set_NoDup_id].
  apply Array_from_Set_NoDup_id. apply foldl_Set_add_NoDup, NoDup_nil_2.
Qed.

Lemma setSelectedDocuments_keeps_first_occurrences_witness :
  NoDup ["b.pdf"; "a.pdf"]
  /\ selectedDocuments
       (generalReducer 1 initialState (setSelectedDocuments ["b.pdf"; "a.pdf"]))
     = ["b.pdf"; "a.pdf"].
Proof.
  assert (Hnd : NoDup ["b.pdf"; "a.pdf"]).
  { apply (bool_decide_unpack (NoDup ["b.pdf"; "a.pdf"])). vm_compute. exact I. }
  split; [exact Hnd|].
  exact (proj2 (proj2 (proj2
           (setSelectedDocuments_keeps_first_occurrences 1 initialState
              ["b.pdf"; "a.pdf"]))) Hnd).
Defined.

(** X7. In every state of a session a toggle flips the context panel's
    checkbox of the toggled document and of no other document. *)
Theorem toggle_flips_one_checkbox (now : Z) (state : State) (d d' : string) :
  reachable state ->
  let state' := generalReducer now state (toggleSelectedDocument d) in
  includes (selectedDocuments state') d = negb (includes (selectedDocuments state) d)
  /\ (d' <> d ->
      includes (selectedDocuments state') d' = includes (selectedDocuments state) d').
Proof.
  intros Hr. simpl. pose proof (reachable_selection_NoDup _ Hr) as Hnd.
  unfold includes.
  destruct (decide (d ∈ selectedDocuments state)) as [Hin|Hn].
  - destruct (toggle_present_removes _ _ Hnd Hin) as [Hgone Hperm].
    split.
    + by rewrite (bool_decide_false _ Hgone), (bool_decide_true _ Hin).
    + intros Hne. apply bool_decide_ext. rewrite Hperm, elem_of_cons.
      split; [by right | by intros [?|?]].
  - rewrite (toggle_absent _ _ Hn). split.
    + rewrite bool_decide_true by (apply elem_of_app; right; by left).
      by rewrite (bool_decide_false _ Hn).
    + intros Hne. apply bool_decide_ext.
      rewrite elem_of_app, list_elem_of_singleton.
      split; [by intros [?|?] | by left].
Qed.

Lemma toggle_flips_one_checkbox_witness :
  let state :=
    generalReducer 1 initialState (setSelectedDocuments ["a.pdf"; "b.pdf"]) in
  let state' := generalReducer 2 state (toggleSelectedDocument "a.pdf") in
  reachable state
  /\ "b.pdf" <> "a.pdf"
  /\ includes (selectedDocuments state') "a.pdf" = false
  /\ includes (selectedDocuments state') "b.pdf" = true.
Proof.
  intros state state'.
  assert (Hr : reachable state) by (apply reachable_step, reachable_init).
  assert (Hne : "b.pdf" <> "a.pdf") by discriminate.
  split; [exact Hr|]. split; [exact Hne|].
  destruct (toggle_flips_one_checkbox 2 state "a.pdf" "b.pdf" Hr) as [H1 H2].
  split; [exact H1 | exact (H2 Hne)].
Defined.

(** ** Sending *)

Lemma handleSendMessage_blocked now w :
  ~ passesGate w -> handleSendMessage now w = w.
Proof.
  intros Hng. unfold handleSendMessage.
  destruct (truthy (PStr (trim (default "" (inputElement w))))) eqn:Hq; [|done].
  destruct (truthy (currentConversationId (store w))) eqn:Hc; [|done].
  destruct (hasSelectedDocuments (store w)) eqn:Hs; [|done].
  destruct Hng. split_and!; [by apply truthy_PStr | done
                            | by apply hasSelectedDocuments_true].
Qed.

(** X8. The send handler changes the world exactly when the gate lets the
    query through: it is a no-op if and only if the trimmed query is empty,
    the current conversation is falsy or no document is selected. *)
Theorem handleSendMessage_noop_iff_gate_closed (now : Z) (w : World) :
  handleSendMessage now w = w <-> ~ passesGate w.
Proof.
  split; [|apply handleSendMessage_blocked].
  intros Heq Hg. destruct (passesGate_input _ Hg) as (q & Hin & Hq).
  destruct Hg as (_ & Hc & Hs).
  rewrite (handleSendMessage_valid now w q Hin Hq Hc Hs) in Heq.
  apply (f_equal (fun x => length (gateway x))) in Heq. simpl in Heq.
  rewrite length_app in Heq. simpl in Heq. lia.
Qed.

(** X9. Selecting another conversation keeps the selection, the documents
    and the transcript of the previous one, so a send right after it posts
    the old selection to the new conversation and appends to the old
    transcript. *)
Theorem send_after_switch_uses_old_selection
    (now1 now2 : Z) (w : World) (q : string) (b : prim) :
  inputElement w = Some q ->
  trim q <> "" ->
  truthy b = true ->
  selectedDocuments (store w) <> [] ->
  let w' := handleSendMessage now2 (dispatch now1 (setCurrentConversationId b) w) in
  gateway w' = gateway w ++ [mkSendRequest b q (selectedDocuments (store w))]
  /\ messages (store w')
     = messages (store w)
       ++ [Message.mk user (PStr q) (PStr ("user_" +:+ pretty now2))]
  /\ documents (store w') = documents (store w)
  /\ selectedDocuments (store w') = selectedDocuments (store w).
Proof.
  intros Hin Hq Hb Hs. simpl.
  rewrite (handleSendMessage_valid now2 _ q); try done.
Qed.

Lemma send_after_switch_uses_old_selection_witness :
  let st :=
    generalReducer 2
      (generalReducer 1 initialState (setCurrentConversationId (PStr "A")))
      (toggleSelectedDocument "a.pdf") in
  let w := mkWorld st (Some "What is X?") [] in
  (inputElement w = Some "What is X?"
   /\ trim "What is X?" <> ""
   /\ truthy (PStr "B") = true
   /\ selectedDocuments (store w) <> [])
  /\ gateway (handleSendMessage 4 (dispatch 3 (setCurrentConversationId (PStr "B")) w))
     = [mkSendRequest (PStr "B") "What is X?" ["a.pdf"]].
Proof.
  intros st w.
  assert (H1 : inputElement w = Some "What is X?") by reflexivity.
  assert (H2 : trim "What is X?" <> "") by (vm_compute; discriminate).
  assert (H3 : truthy (PStr "B") = true) by reflexivity.
  assert (H4 : selectedDocuments (store w) <> []) by (vm_compute; discriminate).
  split; [exact (conj H1 (conj H2 (conj H3 H4)))|].
  exact (proj1 (send_after_switch_uses_old_selection 3 4 w "What is X?" (PStr "B")
                  H1 H2 H3 H4)).
Defined.

(** X10. "New Chat" empties the selection at once, before the backend
    answers.  When the creation then fails, the current conversation, its
    transcript and its documents are as before but nothing is selected, so
    the send handler is a no-op until a document is selected again. *)
Theorem failed_creation_loses_selection
    (now1 now2 now3 : Z) (app : App) (e : AxiosError)
    (input : option string) (gw : list SendRequest) :
  let app1 := Home.handleCreateNewChat now1 app in
  let app2 := finish now2 (failed createNewChat e) app1 in
  selectedDocuments (app_store app1) = []
  /\ requests app1 = requests app ++ [POST_qa_chat_new "general"]
  /\ requests app2 = requests app1
  /\ conversations (app_store app2) = conversations (app_store app)
  /\ currentConversationId (app_store app2) = currentConversationId (app_store app)
  /\ messages (app_store app2) = messages (app_store app)
  /\ documents (app_store app2) = documents (app_store app)
  /\ selectedDocuments (app_store app2) = []
  /\ error (app_store app2) = rejectWithValue e
  /\ handleSendMessage now3 (mkWorld (app_store app2) input gw)
     = mkWorld (app_store app2) input gw.
Proof.
  simpl. split_and!; try done.
  apply handleSendMessage_blocked. intros (_ & _ & Hs). by apply Hs.
Qed.

(** ** Uploading files *)

Section Upload.
Variables (now : Z) (conversationId : prim).
Variable backend : nat -> list string + AxiosError.

Local Abbreviation loop := (FileUpload.uploadLoop now conversationId backend).
Local Abbreviation one i file app :=
  (finish now (FileUpload.upload_outcome (backend i))
     (start now (uploadFile_call file conversationId) app)).

Lemma uploadLoop_snoc files file i app :
  loop i (files ++ [file]) app = one (i + length files) file (loop i files app).
Proof.
  revert i app. induction files as [|f files IH]; intros i app; simpl.
  - by rewrite Nat.add_0_r.
  - rewrite IH. do 3 f_equal. lia.
Qed.

Lemma uploadLoop_requests files i app :
  requests (loop i files app)
  = requests app ++ map (fun file => POST_ingest_document file conversationId) files.
Proof.
  revert i app. induction files as [|f files IH]; intros i app; simpl.
  - by rewrite app_nil_r.
  - rewrite IH. simpl. by rewrite <- app_assoc.
Qed.

Lemma upload_one_fields i file app :
  let s := app_store app in
  let s' := app_store (one i file app) in
  conversations s' = conversations s
  /\ currentConversationId s' = currentConversationId s
  /\ messages s' = messages s
  /\ selectedDocuments s' = selectedDocuments s
  /\ topicSearchResults s' = topicSearchResults s
  /\ isLoading s' = isLoading s
  /\ isSending s' = isSending s
  /\ isSearching s' = isSearching s
  /\ isUploading s' = false
  /\ documents s' = match backend i with inl names => names | inr _ => documents s end
  /\ error s' = match backend i with
                | inl _ => JPrim PNull
                | inr e => rejectWithValue e
                end.
Proof. simpl. by destruct (backend i). Qed.

Lemma uploadLoop_frame files i app :
  let s := app_store app in
  let s' := app_store (loop i files app) in
  conversations s' = conversations s
  /\ currentConversationId s' = currentConversationId s
  /\ messages s' = messages s
  /\ selectedDocuments s' = selectedDocuments s
  /\ topicSearchResults s' = topicSearchResults s
  /\ isLoading s' = isLoading s
  /\ isSending s' = isSending s
  /\ isSearching s' = isSearching s.
Proof.
  simpl. induction files as [|file files IH] using rev_ind; [done|].
  rewrite uploadLoop_snoc.
  destruct (upload_one_fields (i + length files) file (loop i files app))
    as (H1 & H2 & H3 & H4 & H5 & H6 & H7 & H8 & _).
  destruct IH as (I1 & I2 & I3 & I4 & I5 & I6 & I7 & I8).
  split_and!; congruence.
Qed.

Lemma uploadLoop_documents files i app :
  documents (app_store (loop i files app))
  = default (documents (app_store app))
      (FileUpload.last_success (map backend (List.seq i (length files)))).
Proof.
  induction files as [|file files IH] using rev_ind; [done|].
  rewrite uploadLoop_snoc.
  destruct (upload_one_fields (i + length files) file (loop i files app))
    as (_ & _ & _ & _ & _ & _ & _ & _ & _ & Hd & _).
  rewrite Hd, IH. rewrite length_app. simpl length.
  rewrite List.seq_app. simpl List.seq. rewrite map_app. simpl map.
  unfold FileUpload.last_success. rewrite omap_app. simpl omap.
  destruct (backend (i + length files)) as [names|e]; simpl.
  - by rewrite last_snoc.
  - by rewrite app_nil_r.
Qed.

Lemma uploadLoop_last files file i app :
  let s' := app_store (loop i (files ++ [file]) app) in
  isUploading s' = false
  /\ error s' = match backend (i + length files) with
                | inl _ => JPrim PNull
                | inr e => rejectWithValue e
                end.
Proof.
  simpl. rewrite uploadLoop_snoc.
  destruct (upload_one_fields (i + length files) file (loop i files app))
    as (_ & _ & _ & _ & _ & _ & _ & _ & Hu & _ & He).
  done.
Qed.

End Upload.

(** X11. Without a chosen file, or with a falsy conversation id, the upload
    handler does nothing: no call is made, the store and the chosen files
    are what they were. *)
Theorem handleUpload_gate (now : Z) (conversationId : prim)
    (backend : nat -> list string + AxiosError) (c : FileUpload.t) :
  FileUpload.files c = [] \/ truthy conversationId = false ->
  FileUpload.handleUpload now conversationId backend c = c.
Proof.
  intros [Hf|Hc]; unfold FileUpload.handleUpload.
  - by rewrite Hf.
  - rewrite Hc. simpl. by rewrite orb_true_r.
Qed.

Lemma handleUpload_gate_witness :
  let c := FileUpload.mk (mkApp initialState []) ["a.pdf"] in
  (FileUpload.files c = [] \/ truthy PNull = false)
  /\ FileUpload.handleUpload 1 PNull (fun _ => inl ["a.pdf"]) c = c.
Proof.
  intros c.
  assert (H : FileUpload.files c = [] \/ truthy PNull = false) by (right; reflexivity).
  split; [exact H|].
  exact (handleUpload_gate 1 PNull (fun _ => inl ["a.pdf"]) c H).
Defined.

Lemma handleUpload_open now conversationId backend c :
  FileUpload.files c <> [] ->
  truthy conversationId = true ->
  FileUpload.handleUpload now conversationId backend c
  = FileUpload.mk
      (start now (fetchDocuments_call conversationId)
         (FileUpload.uploadLoop now conversationId backend 0 (FileUpload.files c)
            (FileUpload.app c)))
      [].
Proof.
  intros Hf Hc. unfold FileUpload.handleUpload. rewrite Hc.
  destruct (FileUpload.files c); [done|]. done.
Qed.

(** X12. With files chosen and a conversation, the upload handler posts
    the files one by one in their order, whether earlier uploads failed or
    not, then asks for the document list once and forgets the chosen
    files. *)
Theorem handleUpload_calls (now : Z) (conversationId : prim)
    (backend : nat -> list string + AxiosError) (c : FileUpload.t) :
  FileUpload.files c <> [] ->
  truthy conversationId = true ->
  let c' := FileUpload.handleUpload now conversationId backend c in
  requests (FileUpload.app c')
  = requests (FileUpload.app c)
    ++ map (fun file => POST_ingest_document file conversationId) (FileUpload.files c)
    ++ [GET_qa_conversations_documents conversationId]
  /\ FileUpload.files c' = [].
Proof.
  intros Hf Hc. simpl. rewrite (handleUpload_open _ _ _ _ Hf Hc). simpl.
  rewrite uploadLoop_requests. by rewrite <- app_assoc.
Qed.

Lemma handleUpload_calls_witness :
  let c := FileUpload.mk (mkApp initialState []) ["a.pdf"; "b.txt"] in
  let backend := fun i : nat =>
    if (i =? 0)%nat then inr (mkAxiosError None "Network Error") else inl ["b.txt"] in
  (FileUpload.files c <> [] /\ truthy (PStr "c1") = true)
  /\ requests (FileUpload.app (FileUpload.handleUpload 1 (PStr "c1") backend c))
     = [POST_ingest_document "a.pdf" (PStr "c1");
        POST_ingest_document "b.txt" (PStr "c1");
        GET_qa_conversations_documents (PStr "c1")].
Proof.
  intros c backend.
  assert (H1 : FileUpload.files c <> []) by discriminate.
  assert (H2 : truthy (PStr "c1") = true) by reflexivity.
  split; [exact (conj H1 H2)|].
  exact (proj1 (handleUpload_calls 1 (PStr "c1") backend c H1 H2)).
Defined.

(** X13. Each upload's answer overwrites [documents], so when the handler
    returns [documents] holds the names the last successful upload
    answered with, or what it held before when every upload failed.  The
    conversations, the current conversation, the transcript and the
    selection are untouched. *)
Theorem handleUpload_last_answer_wins (now : Z) (conversationId : prim)
    (backend : nat -> list string + AxiosError) (c : FileUpload.t) :
  FileUpload.files c <> [] ->
  truthy conversationId = true ->
  let s := app_store (FileUpload.app c) in
  let s' := app_store (FileUpload.app (FileUpload.handleUpload now conversationId backend c)) in
  documents s'
  = default (documents s)
      (FileUpload.last_success
         (map backend (List.seq 0 (length (FileUpload.files c)))))
  /\ conversations s' = conversations s
  /\ currentConversationId s' = currentConversationId s
  /\ messages s' = messages s
  /\ selectedDocuments s' = selectedDocuments s.
Proof.
  intros Hf Hc. simpl. rewrite (handleUpload_open _ _ _ _ Hf Hc). simpl.
  rewrite uploadLoop_documents.
  destruct (uploadLoop_frame now conversationId backend (FileUpload.files c) 0
              (FileUpload.app c)) as (H1 & H2 & H3 & H4 & _).
  done.
Qed.

Lemma handleUpload_last_answer_wins_witness :
  let c := FileUpload.mk (mkApp initialState []) ["a.pdf"; "b.txt"; "c.mp3"] in
  let backend := fun i : nat =>
    if (i =? 0)%nat then inl ["a.pdf"]
    else if (i =? 1)%nat then inl ["a.pdf"; "b.txt"]
    else inr (mkAxiosError None "Network Error") in
  (FileUpload.files c <> [] /\ truthy (PStr "c1") = true)
  /\ documents (app_store (FileUpload.app
                  (FileUpload.handleUpload 1 (PStr "c1") backend c)))
     = ["a.pdf"; "b.txt"].
Proof.
  intros c backend.
  assert (H1 : FileUpload.files c <> []) by discriminate.
  assert (H2 : truthy (PStr "c1") = true) by reflexivity.
  split; [exact (conj H1 H2)|].
  exact (proj1 (handleUpload_last_answer_wins 1 (PStr "c1") backend c H1 H2)).
Defined.

(** X14. Each upload's [pending] resets [error], so when the handler
    returns [error] tells of the last file only: it holds the last upload's
    rejection, or [null] when the last upload succeeded, whatever happened
    to the files before it.  [isUploading] is down and [isLoading] is up
    for the document refresh. *)
Theorem handleUpload_error_of_last_file (now : Z) (conversationId : prim)
    (backend : nat -> list string + AxiosError) (c : FileUpload.t) :
  FileUpload.files c <> [] ->
  truthy conversationId = true ->
  let s' := app_store (FileUpload.app (FileUpload.handleUpload now conversationId backend c)) in
  error s' = match backend (length (FileUpload.files c) - 1)%nat with
             | inl _ => JPrim PNull
             | inr e => rejectWithValue e
             end
  /\ isUploading s' = false
  /\ isLoading s' = true.
Proof.
  intros Hf Hc. simpl. rewrite (handleUpload_open _ _ _ _ Hf Hc). simpl.
  destruct (FileUpload.files c) as [|f0 fs _] using rev_ind; [done|].
  destruct (uploadLoop_last now conversationId backend fs f0 0 (FileUpload.app c))
    as [Hu He].
  rewrite length_app. simpl length.
  replace (length fs + 1 - 1)%nat with (0 + length fs)%nat by lia.
  done.
Qed.

Lemma handleUpload_error_of_last_file_witness :
  let c := FileUpload.mk (mkApp initialState []) ["a.pdf"; "b.txt"] in
  let backend := fun i : nat =>
    if (i =? 0)%nat then inr (mkAxiosError None "Network Error") else inl ["b.txt"] in
  (FileUpload.files c <> [] /\ truthy (PStr "c1") = true)
  /\ error (app_store (FileUpload.app
              (FileUpload.handleUpload 1 (PStr "c1") backend c)))
     = JPrim PNull.
Proof.
  intros c backend.
  assert (H1 : FileUpload.files c <> []) by discriminate.
  assert (H2 : truthy (PStr "c1") = true) by reflexivity.
  split; [exact (conj H1 H2)|].
  exact (proj1 (handleUpload_error_of_last_file 1 (PStr "c1") backend c H1 H2)).
Defined.

(** ** Ingesting a URL *)

(** X15. The URL handler does nothing for a blank URL or a falsy
    conversation id.  Otherwise it posts the URL, and when that call has
    ended, in success or in failure, it clears the typed URL and asks for
    the document list: [documents] is not changed by the ingestion itself,
    a failure is left in [error] (the refresh's [pending] does not reset
    it), and [isLoading] is up again for the refresh. *)
Theorem handleProcess_spec (now : Z) (conversationId : prim)
    (answer : unit + AxiosError) (c : UrlIngestion.t) :
  let c' := UrlIngestion.handleProcess now conversationId answer c in
  let s := app_store (UrlIngestion.app c) in
  let s' := app_store (UrlIngestion.app c') in
  (trim (UrlIngestion.url c) = "" \/ truthy conversationId = false -> c' = c)
  /\ (trim (UrlIngestion.url c) <> "" -> truthy conversationId = true ->
      requests (UrlIngestion.app c')
      = requests (UrlIngestion.app c)
        ++ [POST_ingest_url conversationId (UrlIngestion.url c);
            GET_qa_conversations_documents conversationId]
      /\ UrlIngestion.url c' = ""
      /\ documents s' = documents s
      /\ error s' = match answer with
                    | inl _ => JPrim PNull
                    | inr e => rejectWithValue e
                    end
      /\ isLoading s' = true).
Proof.
  simpl. unfold UrlIngestion.handleProcess. split.
  - intros [Hu|Hc].
    + by rewrite Hu.
    + rewrite Hc. simpl. by rewrite orb_true_r.
  - intros Hu Hc. apply truthy_PStr in Hu. rewrite Hu, Hc. simpl.
    rewrite <- app_assoc. by destruct answer.
Qed.

Lemma handleProcess_spec_witness :
  let c := UrlIngestion.mk (mkApp initialState []) "https://example.org/a" in
  let c' :=
    UrlIngestion.handleProcess 1 (PStr "c1") (inr (mkAxiosError None "Network Error")) c in
  (trim (UrlIngestion.url c) <> "" /\ truthy (PStr "c1") = true)
  /\ UrlIngestion.url c' = ""
  /\ error (app_store (UrlIngestion.app c')) = JPrim (PStr "Network Error").
Proof.
  intros c c'.
  assert (H1 : trim (UrlIngestion.url c) <> "") by (vm_compute; discriminate).
  assert (H2 : truthy (PStr "c1") = true) by reflexivity.
  split; [exact (conj H1 H2)|].
  destruct (proj2 (handleProcess_spec 1 (PStr "c1")
                     (inr (mkAxiosError None "Network Error")) c) H1 H2)
    as (_ & Hu & _ & He & _).
  exact (conj Hu He).
Defined.

(** ** Searching and ingesting a topic *)

(** X16. A search needs a topic that is not blank and nothing else: no
    conversation id enters the call, which carries the topic and an empty
    list of seen URLs.  When the search succeeds the results replace the
    earlier ones (a missing [results] field counts as no result); when it
    fails the earlier results stay.  In both cases the URLs ticked before
    stay ticked. *)
Theorem handleSearch_spec (now1 now2 : Z) (c : TopicSearch.t)
    (answer : option (list TopicSearchResult.t) + AxiosError) :
  let c' := TopicSearch.handleSearch now1 c in
  let s := app_store (TopicSearch.app c) in
  let s' :=
    app_store
      (finish now2
         (match answer with
          | inl results => succeeded (searchTopic_ok results)
          | inr e => failed searchTopic e
          end)
         (TopicSearch.app c')) in
  (trim (TopicSearch.topic c) = "" -> c' = c)
  /\ (trim (TopicSearch.topic c) <> "" ->
      requests (TopicSearch.app c')
      = requests (TopicSearch.app c)
        ++ [POST_ingest_search_query None (TopicSearch.topic c) (Some [])]
      /\ isSearching (app_store (TopicSearch.app c')) = true
      /\ TopicSearch.selectedUrls c' = TopicSearch.selectedUrls c
      /\ topicSearchResults s'
         = match answer with
           | inl results => default [] results
           | inr _ => topicSearchResults s
           end
      /\ isSearching s' = false).
Proof.
  simpl. unfold TopicSearch.handleSearch. split.
  - intros Ht. by rewrite Ht.
  - intros Ht. apply truthy_PStr in Ht. rewrite Ht. simpl. by destruct answer.
Qed.

Lemma handleSearch_spec_witness :
  let c := TopicSearch.mk (mkApp initialState []) "Latest AI News" [PStr "https://old"] in
  let c' := TopicSearch.handleSearch 1 c in
  trim (TopicSearch.topic c) <> ""
  /\ requests (TopicSearch.app c')
     = [POST_ingest_search_query None "Latest AI News" (Some [])]
  /\ TopicSearch.selectedUrls c' = [PStr "https://old"].
Proof.
  intros c c'.
  assert (H1 : trim (TopicSearch.topic c) <> "") by (vm_compute; discriminate).
  split; [exact H1|].
  destruct (proj2 (handleSearch_spec 1 2 c (inl None)) H1) as (Hr & _ & Hs & _).
  exact (conj Hr Hs).
Defined.

(** X17. Ingesting needs at least one ticked URL and a conversation id.
    The call then carries the topic and the conversation id only, so the
    handler's result is the same whichever URLs were ticked.  When the
    call has ended, in success or in failure, the search results, the
    ticked URLs and the topic are all cleared and the document list is
    asked for. *)
Theorem handleIngestSelected_spec (now : Z) (conversationId : prim)
    (answer : unit + AxiosError) (c : TopicSearch.t) (urls : list prim) :
  let c' := TopicSearch.handleIngestSelected now conversationId answer c in
  let s' := app_store (TopicSearch.app c') in
  (TopicSearch.selectedUrls c = [] \/ truthy conversationId = false -> c' = c)
  /\ (TopicSearch.selectedUrls c <> [] -> truthy conversationId = true ->
      requests (TopicSearch.app c')
      = requests (TopicSearch.app c)
        ++ [POST_ingest_search_query (Some conversationId) (TopicSearch.topic c) None;
            GET_qa_conversations_documents conversationId]
      /\ topicSearchResults s' = []
      /\ TopicSearch.selectedUrls c' = []
      /\ TopicSearch.topic c' = ""
      /\ error s' = match answer with
                    | inl _ => JPrim PNull
                    | inr e => rejectWithValue e
                    end
      /\ (urls <> [] ->
          TopicSearch.handleIngestSelected now conversationId answer
            (TopicSearch.mk (TopicSearch.app c) (TopicSearch.topic c) urls)
          = c')).
Proof.
  simpl. unfold TopicSearch.handleIngestSelected. split.
  - intros [Hu|Hc].
    + by rewrite Hu.
    + rewrite Hc. simpl. by rewrite orb_true_r.
  - intros Hu Hc. rewrite Hc.
    destruct (TopicSearch.selectedUrls c) as [|u0 us]; [done|]. simpl.
    rewrite <- app_assoc. split_and!; try (by destruct answer).
    intros Hurls. by destruct urls.
Qed.

Lemma handleIngestSelected_spec_witness :
  let r := TopicSearchResult.mk (PStr "A") (PStr "https://a") in
  let st := generalReducer 1 initialState (fulfilled (searchTopic_ok (Some [r]))) in
  let c := TopicSearch.mk (mkApp st []) "ai" [PStr "https://a"] in
  let c' :=
    TopicSearch.handleIngestSelected 2 (PStr "c1")
      (inr (mkAxiosError None "Network Error")) c in
  (TopicSearch.selectedUrls c <> [] /\ truthy (PStr "c1") = true)
  /\ topicSearchResults (app_store (TopicSearch.app c)) = [r]
  /\ topicSearchResults (app_store (TopicSearch.app c')) = []
  /\ requests (TopicSearch.app c')
     = [POST_ingest_search_query (Some (PStr "c1")) "ai" None;
        GET_qa_conversations_documents (PStr "c1")].
Proof.
  intros r st c c'.
  assert (H1 : TopicSearch.selectedUrls c <> []) by discriminate.
  assert (H2 : truthy (PStr "c1") = true) by reflexivity.
  split; [exact (conj H1 H2)|]. split; [reflexivity|].
  destruct (proj2 (handleIngestSelected_spec 2 (PStr "c1")
                     (inr (mkAxiosError None "Network Error")) c []) H1 H2)
    as (Hr & Ht & _).
  exact (conj Ht Hr).
Defined.

Lemma TopicSearch_Set_add_spec (sel : list prim) (u : prim) :
  u ∈ TopicSearch.Set_add sel u
  /\ (forall u', u' <> u -> u' ∈ TopicSearch.Set_add sel u <-> u' ∈ sel)
  /\ (NoDup sel -> NoDup (TopicSearch.Set_add sel u)).
Proof.
  unfold TopicSearch.Set_add, TopicSearch.Set_has.
  destruct (decide (u ∈ sel)) as [Hin|Hn].
  - rewrite (bool_decide_true _ Hin). done.
  - rewrite (bool_decide_false _ Hn). split_and!.
    + apply elem_of_app. right. by left.
    + intros u' Hne. rewrite elem_of_app, list_elem_of_singleton.
      split; [by intros [?|?] | by left].
    + intros Hnd. apply NoDup_app. split_and!; [done| |apply NoDup_singleton].
      intros y Hy Hy'. apply list_elem_of_singleton in Hy'. by subst.
Qed.

(** X18. After a result's checkbox changes, the URL is among the ticked
    URLs exactly when the box is checked; no other URL is ticked or
    unticked by it, and the ticked URLs stay free of duplicates. *)
Theorem onCheckedChange_spec (url url' : prim) (checked : bool) (c : TopicSearch.t) :
  let c' := TopicSearch.onCheckedChange url checked c in
  TopicSearch.Set_has (TopicSearch.selectedUrls c') url = checked
  /\ (url' <> url ->
      TopicSearch.Set_has (TopicSearch.selectedUrls c') url'
      = TopicSearch.Set_has (TopicSearch.selectedUrls c) url')
  /\ (NoDup (TopicSearch.selectedUrls c) -> NoDup (TopicSearch.selectedUrls c')).
Proof.
  simpl. destruct checked.
  - destruct (TopicSearch_Set_add_spec (TopicSearch.selectedUrls c) url)
      as (Hin & Hother & Hnd).
    split_and!; [by apply bool_decide_true | | done].
    intros Hne. apply bool_decide_ext. by apply Hother.
  - unfold TopicSearch.Set_has, TopicSearch.Set_delete. split_and!.
    + apply bool_decide_false. rewrite list_elem_of_filter. tauto.
    + intros Hne. apply bool_decide_ext. rewrite list_elem_of_filter. tauto.
    + intros Hnd. by apply NoDup_filter.
Qed.

Lemma onCheckedChange_spec_witness :
  let c := TopicSearch.mk (mkApp initialState []) "ai" [PStr "https://a"; PStr "https://b"] in
  let c' := TopicSearch.onCheckedChange (PStr "https://a") false c in
  (PStr "https://b" <> PStr "https://a" /\ NoDup (TopicSearch.selectedUrls c))
  /\ TopicSearch.Set_has (TopicSearch.selectedUrls c') (PStr "https://a") = false
  /\ TopicSearch.Set_has (TopicSearch.selectedUrls c') (PStr "https://b") = true
  /\ NoDup (TopicSearch.selectedUrls c').
Proof.
  intros c c'.
  assert (H1 : PStr "https://b" <> PStr "https://a") by discriminate.
  assert (H2 : NoDup (TopicSearch.selectedUrls c)).
  { apply (bool_decide_unpack (NoDup (TopicSearch.selectedUrls c))). vm_compute. exact I. }
  split; [exact (conj H1 H2)|].
  destruct (onCheckedChange_spec (PStr "https://a") (PStr "https://b") false c)
    as (Ha & Hb & Hn).
  exact (conj Ha (conj (Hb H1) (Hn H2))).
Defined.

(** ** Feedback *)

Lemma stars_range i value : ChatMessages.stars !! i = Some value -> 1 <= value <= 5.
Proof.
  unfold ChatMessages.stars.
  do 5 (destruct i as [|i]; [intros [= <-]; lia|]). by destruct i.
Qed.

Lemma feedback_step_invariant now conversationId base c e :
  (0 <= ChatMessages.selectedRating c <= 5
   /\ exists extra,
        requests (ChatMessages.app c) = base ++ extra
        /\ Forall (rated_feedback_request conversationId) extra) ->
  let c' := ChatMessages.step now conversationId c e in
  0 <= ChatMessages.selectedRating c' <= 5
  /\ exists extra,
       requests (ChatMessages.app c') = base ++ extra
       /\ Forall (rated_feedback_request conversationId) extra.
Proof.
  intros (Hr & extra & Hreq & Hall). destruct e as [msg|msg|i|answer]; simpl.
  - destruct (ChatMessages.hasDialog conversationId msg); simpl; [|by eauto].
    split; [lia|by eauto].
  - destruct (ChatMessages.hasDialog conversationId msg); simpl; [|by eauto].
    split; [lia|by eauto].
  - unfold ChatMessages.onClickStar.
    destruct (ChatMessages.stars !! i) as [value|] eqn:Hi; simpl; [|by eauto].
    split; [apply stars_range in Hi; lia | by eauto].
  - unfold ChatMessages.handleSubmitFeedback.
    destruct (truthy conversationId) eqn:Hc; simpl; [|by eauto].
    destruct (truthy (ChatMessages.activeMessageId c)) eqn:Hm; simpl; [|by eauto].
    destruct (Z.eqb_spec (ChatMessages.selectedRating c) 0) as [H0|H0]; simpl;
      [by eauto|].
    assert (Hnew : Forall (rated_feedback_request conversationId)
                     (extra ++ [POST_qa_chat_feedback conversationId
                                  (ChatMessages.activeMessageId c)
                                  (ChatMessages.selectedRating c)])).
    { apply Forall_app. split; [done|]. apply Forall_singleton.
      exists (ChatMessages.activeMessageId c), (ChatMessages.selectedRating c).
      split_and!; [done|done|done|lia|lia]. }
    destruct answer as [[]|err]; simpl.
    + split; [lia|]. eexists. split; [|exact Hnew]. by rewrite Hreq, <- app_assoc.
    + split; [lia|]. eexists. split; [|exact Hnew]. by rewrite Hreq, <- app_assoc.
Qed.

(** X19. Whatever is done with the feedback dialogs (opening, closing,
    clicking stars, submitting with any answer from the backend), every
    feedback call made names a message, is for a truthy conversation id
    and carries a rating between 1 and 5: the unset rating 0 is never
    submitted. *)
Theorem feedback_requests_are_rated (now : Z) (conversationId : prim)
    (app : App) (events : list ChatMessages.Event) :
  let c' := ChatMessages.run now conversationId (ChatMessages.mount app) events in
  0 <= ChatMessages.selectedRating c' <= 5
  /\ exists extra,
       requests (ChatMessages.app c') = requests app ++ extra
       /\ Forall (rated_feedback_request conversationId) extra.
Proof.
  simpl. unfold ChatMessages.run.
  assert (Hinit : 0 <= ChatMessages.selectedRating (ChatMessages.mount app) <= 5
                  /\ exists extra,
                       requests (ChatMessages.app (ChatMessages.mount app))
                       = requests app ++ extra
                       /\ Forall (rated_feedback_request conversationId) extra).
  { simpl. split; [lia|]. exists []. by rewrite app_nil_r. }
  revert Hinit. generalize (ChatMessages.mount app) as c.
  induction events as [|e events IH]; intros c Hinv; simpl; [done|].
  apply IH. by apply feedback_step_invariant.
Qed.

Lemma fallbackMessage_truthy (v : json) :
  truthy_json v = true -> truthy_json (ChatMessages.fallbackMessage v) = true.
Proof.
  destruct v as [p|items|fields]; simpl; [|done|].
  - by destruct p.
  - intros _. by destruct (truthy_json (ChatMessages.get_detail fields)) eqn:Hd.
Qed.

Lemma rejectWithValue_truthy (e : AxiosError) :
  message e <> "" -> truthy_json (rejectWithValue e) = true.
Proof.
  intros Hm. apply truthy_PStr in Hm. unfold rejectWithValue.
  destruct (response_data e) as [data|]; [|done].
  by destruct (truthy_json data) eqn:Hd.
Qed.

(** X20. The feedback handler does nothing without a conversation id, an
    open dialog or a rating.  Otherwise it posts the rating of the open
    dialog's message.  On success the dialog closes and the rating is unset
    again; the store's [error] is not touched.  On failure the dialog stays
    open with its rating, the rejection is stored in [error] as well, and
    the inline error, read off the rejection, is shown (truthy) whenever
    the error's message text is not empty. *)
Theorem handleSubmitFeedback_spec (now : Z) (conversationId : prim)
    (answer : unit + AxiosError) (c : ChatMessages.t) :
  let c' := ChatMessages.handleSubmitFeedback now conversationId answer c in
  let s := app_store (ChatMessages.app c) in
  let s' := app_store (ChatMessages.app c') in
  (truthy conversationId = false
   \/ truthy (ChatMessages.activeMessageId c) = false
   \/ ChatMessages.selectedRating c = 0 -> c' = c)
  /\ (truthy conversationId = true ->
      truthy (ChatMessages.activeMessageId c) = true ->
      ChatMessages.selectedRating c <> 0 ->
      requests (ChatMessages.app c')
      = requests (ChatMessages.app c)
        ++ [POST_qa_chat_feedback conversationId (ChatMessages.activeMessageId c)
              (ChatMessages.selectedRating c)]
      /\ isLoading s' = false
      /\ ChatMessages.isSubmittingFeedback c' = false
      /\ match answer with
         | inl _ =>
             ChatMessages.activeMessageId c' = PNull
             /\ ChatMessages.selectedRating c' = 0
             /\ ChatMessages.feedbackError c' = JPrim (PStr "")
             /\ error s' = error s
         | inr e =>
             ChatMessages.activeMessageId c' = ChatMessages.activeMessageId c
             /\ ChatMessages.selectedRating c' = ChatMessages.selectedRating c
             /\ error s' = rejectWithValue e
             /\ ChatMessages.feedbackError c'
                = ChatMessages.fallbackMessage (rejectWithValue e)
             /\ (message e <> "" ->
                 truthy_json (ChatMessages.feedbackError c') = true)
         end).
Proof.
  simpl. unfold ChatMessages.handleSubmitFeedback. split.
  - intros [Hc|[Hm|Hr]].
    + by rewrite Hc.
    + rewrite Hm. simpl. by rewrite orb_true_r.
    + rewrite Hr. simpl. by rewrite !orb_true_r.
  - intros Hc Hm Hr. rewrite Hc, Hm. apply Z.eqb_neq in Hr. rewrite Hr. simpl.
    destruct answer as [[]|e]; simpl; split_and!; try done.
    intros Hmsg. by apply fallbackMessage_truthy, rejectWithValue_truthy.
Qed.

Lemma handleSubmitFeedback_spec_witness :
  let c :=
    ChatMessages.onClickStar 3
      (ChatMessages.onOpenChange
         (Message.mk assistant (PStr "X is Y") (PStr "ai_1700000000456")) true
         (ChatMessages.mount (mkApp initialState []))) in
  let e :=
    mkAxiosError (Some (JObj [("detail", JPrim (PStr "Message not found"))]))
      "Request failed with status code 404" in
  let c' := ChatMessages.handleSubmitFeedback 1 (PStr "c1") (inr e) c in
  (truthy (PStr "c1") = true
   /\ truthy (ChatMessages.activeMessageId c) = true
   /\ ChatMessages.selectedRating c <> 0)
  /\ requests (ChatMessages.app c')
     = [POST_qa_chat_feedback (PStr "c1") (PStr "ai_1700000000456") 4]
  /\ ChatMessages.feedbackError c' = JPrim (PStr "Message not found").
Proof.
  intros c e c'.
  assert (H1 : truthy (PStr "c1") = true) by reflexivity.
  assert (H2 : truthy (ChatMessages.activeMessageId c) = true) by reflexivity.
  assert (H3 : ChatMessages.selectedRating c <> 0) by (vm_compute; discriminate).
  split; [exact (conj H1 (conj H2 H3))|].
  destruct (proj2 (handleSubmitFeedback_spec 1 (PStr "c1") (inr e) c) H1 H2 H3)
    as (Hr & _ & _ & _ & _ & _ & Hf & _).
  exact (conj Hr Hf).
Defined.

(** X21. Which messages get a feedback dialog, given a truthy
    conversation id: the assistant message a fulfilled send appends always
    does, under the identifier the client made for it; the user message a
    send appends never does; a message loaded from the history does when
    its record's role is not ["human"] and its id is truthy. *)
Theorem feedback_dialog_of_messages (now : Z) (state : State)
    (conversationId response : prim) (q : string) (r : HistoryRecord.t) :
  truthy conversationId = true ->
  truthy response = true ->
  last (messages (generalReducer now state (fulfilled (sendMessage_ok response))))
  = Some (Message.mk assistant response (PStr ("ai_" +:+ pretty now)))
  /\ ChatMessages.hasDialog conversationId
       (Message.mk assistant response (PStr ("ai_" +:+ pretty now))) = true
  /\ ChatMessages.hasDialog conversationId
       (Message.mk user (PStr q) (PStr ("user_" +:+ pretty now))) = false
  /\ (forall m,
        messages (generalReducer now state (fulfilled (fetchConversationHistory_ok [r])))
        = [m] ->
        ChatMessages.hasDialog conversationId m
        = negb (strict_eq (HistoryRecord.role r) (PStr "human"))
          && truthy (HistoryRecord.id r)).
Proof.
  intros Hc Hr. simpl.
  unfold extraReducers.sendMessage_fulfilled, seq; simpl. rewrite Hr. simpl.
  rewrite last_snoc. unfold ChatMessages.hasDialog; simpl. rewrite Hc.
  split_and!; try done.
  intros m [= <-]. simpl.
  destruct (strict_eq (HistoryRecord.role r) (PStr "human")); simpl; [done|].
  apply andb_true_r.
Qed.

Lemma feedback_dialog_of_messages_witness :
  (truthy (PStr "c1") = true /\ truthy (PStr "X is Y") = true)
  /\ ChatMessages.hasDialog (PStr "c1")
       (Message.mk assistant (PStr "X is Y") (PStr "ai_1700000000456")) = true.
Proof.
  assert (H1 : truthy (PStr "c1") = true) by reflexivity.
  assert (H2 : truthy (PStr "X is Y") = true) by reflexivity.
  split; [exact (conj H1 H2)|].
  exact (proj1 (proj2
           (feedback_dialog_of_messages 1700000000456 initialState (PStr "c1")
              (PStr "X is Y") "What is X?"
              (HistoryRecord.mk (PStr "ai") (PStr "hello") (PStr "m2")) H1 H2))).
Defined.

(** X22. "Clear Search" empties the results but not the ticked URLs, so
    ingesting stays possible after it: with a URL still ticked and a
    conversation id, the ingest handler posts the topic although no result
    is listed any more. *)
Theorem clearSearch_keeps_ticked_urls (now1 now2 : Z) (conversationId : prim)
    (answer : unit + AxiosError) (c : TopicSearch.t) :
  TopicSearch.selectedUrls c <> [] ->
  truthy conversationId = true ->
  let c1 := TopicSearch.clearSearch now1 c in
  let c2 := TopicSearch.handleIngestSelected now2 conversationId answer c1 in
  topicSearchResults (app_store (TopicSearch.app c1)) = []
  /\ TopicSearch.selectedUrls c1 = TopicSearch.selectedUrls c
  /\ requests (TopicSearch.app c2)
     = requests (TopicSearch.app c)
       ++ [POST_ingest_search_query (Some conversationId) (TopicSearch.topic c) None;
           GET_qa_conversations_documents conversationId].
Proof.
  intros Hu Hc. simpl. split_and!; [done|done|].
  unfold TopicSearch.handleIngestSelected. simpl. rewrite Hc.
  destruct (TopicSearch.selectedUrls c); [done|]. simpl.
  by rewrite <- app_assoc.
Qed.

Lemma clearSearch_keeps_ticked_urls_witness :
  let r := TopicSearchResult.mk (PStr "A") (PStr "https://a") in
  let st := generalReducer 1 initialState (fulfilled (searchTopic_ok (Some [r]))) in
  let c := TopicSearch.mk (mkApp st []) "ai" [PStr "https://a"] in
  (TopicSearch.selectedUrls c <> [] /\ truthy (PStr "c1") = true)
  /\ requests (TopicSearch.app
                 (TopicSearch.handleIngestSelected 3 (PStr "c1") (inl tt)
                    (TopicSearch.clearSearch 2 c)))
     = [POST_ingest_search_query (Some (PStr "c1")) "ai" None;
        GET_qa_conversations_documents (PStr "c1")].
Proof.
  intros r st c.
  assert (H1 : TopicSearch.selectedUrls c <> []) by discriminate.
  assert (H2 : truthy (PStr "c1") = true) by reflexivity.
  split; [exact (conj H1 H2)|].
  exact (proj2 (proj2 (clearSearch_keeps_ticked_urls 2 3 (PStr "c1") (inl tt) c H1 H2))).
Defined.
